(** * LinkedIn MCP server: activity scraping and the saved-posts tools

    A shallow embedding of [linkedin_mcp_server/tools/activity.py] and
    [linkedin_mcp_server/tools/posts.py].

    The browser is an external collaborator.  A rendered page is a tree of
    elements; [find_element] and [find_elements] look a compound CSS selector
    up among the descendants of an element, in document order, as the
    WebDriver calls of the source do.  Python exceptions are values of [exn]
    carried in the left summand of [result]. *)

From Stdlib Require Import Ascii.
From stdpp Require Import base numbers list strings gmap sorting.

Open Scope Z_scope.

(** ** Exceptions and the error monad *)

(** A compound selector [tag.class] or [tag.class:not(.excluded)]. *)
Record selector := Selector {
  sel_tag : string;
  sel_class : string;
  sel_not : option string
}.

Inductive exn :=
| NoSuchElementException (sel : selector)
| UnboundLocalError (var : string)
| TimeoutException
| WebDriverException (url : string)
| DriverUnavailable
| AttributeError (attr : string)
| KeyError (key : string)
| TypeError (what : string)
| IndexError
| ValueError (data : string).

Definition result (A : Type) : Type := exn + A.

#[global] Instance result_ret : MRet (sum exn) := λ A a, inr a.
#[global] Instance result_bind : MBind (sum exn) := λ A B f m,
  match m with
  | inl e => inl e
  | inr a => f a
  end.

(** ** The rendered page *)

Module Dom.

#[warnings="-register-all"]
Inductive element := Element {
  tag : string;
  classes : list string;
  text : string;
  children : list element
}.

(** Descendants of an element in document order (the element itself is not
    one of them). *)
Fixpoint descendants (e : element) : list element :=
  (fix over (l : list element) : list element :=
     match l with
     | [] => []
     | c :: l' => c :: descendants c ++ over l'
     end) (children e).

Definition has_class (c : string) (e : element) : bool :=
  bool_decide (c ∈ classes e).

Definition matches (sel : selector) (e : element) : bool :=
  bool_decide (tag e = sel_tag sel)
  && has_class (sel_class sel) e
  && match sel_not sel with
     | None => true
     | Some c => negb (has_class c e)
     end.

(** [element.find_elements(By.CSS_SELECTOR, sel)] *)
Definition find_elements (sel : selector) (e : element) : list element :=
  List.filter (matches sel) (descendants e).

(** [element.find_element(By.CSS_SELECTOR, sel)]: the first match, or
    [NoSuchElementException]. *)
Definition find_element (sel : selector) (e : element) : result element :=
  match find_elements sel e with
  | [] => inl (NoSuchElementException sel)
  | x :: _ => inr x
  end.

(** The same two calls on the driver search the whole document, its root
    included. *)
Definition driver_find_elements (sel : selector) (doc : element) : list element :=
  List.filter (matches sel) (doc :: descendants doc).

Definition driver_find_element (sel : selector) (doc : element) : result element :=
  match driver_find_elements sel doc with
  | [] => inl (NoSuchElementException sel)
  | x :: _ => inr x
  end.

End Dom.

(** ** Strings as Python uses them *)

Module Str.

(** Strings are sequences of one-byte characters: the UTF-8 encoding of
    the text. *)

(** [needle in hay] on [str]. *)
Fixpoint contains (needle hay : string) : bool :=
  String.prefix needle hay
  || match hay with
     | EmptyString => false
     | String _ hay' => contains needle hay'
     end.

Definition lower_ascii (c : ascii) : ascii :=
  let n := nat_of_ascii c in
  if (65 <=? n)%nat && (n <=? 90)%nat then ascii_of_nat (n + 32) else c.

Definition upper_ascii (c : ascii) : ascii :=
  let n := nat_of_ascii c in
  if (97 <=? n)%nat && (n <=? 122)%nat then ascii_of_nat (n - 32) else c.

Fixpoint map_string (f : ascii → ascii) (s : string) : string :=
  match s with
  | EmptyString => EmptyString
  | String c s' => String (f c) (map_string f s')
  end.

(** The case mappings of the ASCII letters, other characters left as they
    are: what [s.lower()] and [s.upper()] do to a text of ASCII
    characters.  On other text Python follows the Unicode character
    database, which these two functions do not cover; the tools below take
    the two methods as parameters, and the examples run them on ASCII text
    with these. *)
Definition ascii_lower : string → string := map_string lower_ascii.
Definition ascii_upper : string → string := map_string upper_ascii.

(** [s.split(sep)] for a one-character separator: never empty. *)
Fixpoint split (sep : ascii) (s : string) : list string :=
  match s with
  | EmptyString => [EmptyString]
  | String c s' =>
    if bool_decide (c = sep) then EmptyString :: split sep s'
    else match split sep s' with
         | [] => [String c EmptyString]
         | w :: ws => String c w :: ws
         end
  end.

End Str.

(** ** activity.py *)

Module Activity.
Import Dom.

Definition MAX_COMMENTS : Z := 20.
Definition MAX_REACTIONS : Z := 20.

(** The selectors of the source. *)
Definition sel_container := Selector "div" "scaffold-finite-scroll__content" None.
Definition sel_feed_item := Selector "div" "feed-shared-update-v2" None.
Definition sel_header_text := Selector "span" "update-components-header__text-view" None.
Definition sel_actor_title := Selector "span" "update-components-actor__title" None.
Definition sel_text_block := Selector "div" "update-components-text" None.
Definition sel_reply_entity := Selector "article" "comments-comment-entity--reply" None.
Definition sel_nonreply_entity :=
  Selector "article" "comments-comment-entity" (Some "comments-comment-entity--reply").
Definition sel_comment_entity := Selector "article" "comments-comment-entity" None.
Definition sel_main_content := Selector "span" "comments-comment-item__main-content" None.
Definition sel_comment_time := Selector "time" "comments-comment-meta__data" None.
Definition sel_sub_description :=
  Selector "span" "update-components-actor__sub-description" None.

(** What [logger.warning] and [logger.error] receive: the message prefix ahead
    of the formatted exception, and the exception. *)
Inductive log_record :=
| Warning (msg : string) (e : option exn)
| Error (msg : string) (e : exn).

(** The dictionary appended to [comments]. *)
Record comment := Comment {
  post_author : string;
  post_content : string;
  is_reply : bool;
  original_comment : option string;
  comment_text : string;
  timestamp : string
}.

(** The dictionary appended to [reactions]. *)
Record reaction := Reaction {
  r_post_author : string;
  r_post_content : string;
  r_reaction : string;
  r_timestamp : string
}.

(** Lines 46-49: the header text decides whether the item is a reply; any
    exception of the lookup leaves [is_reply = False]. *)
Definition classify_body (item : element) : result bool :=
  h ← find_element sel_header_text item;
  mret (Str.contains "replied to" (text h)).

Definition classify (item : element) : bool :=
  match classify_body item with
  | inr b => b
  | inl _ => false
  end.

(** Lines 56-73, after [post_author] and [post_content] are bound. *)
Definition comment_data (is_reply : bool) (item : element)
    (post_author post_content : string) : result comment :=
  if is_reply then
    reply_element ← find_element sel_reply_entity item;
    c ← find_element sel_main_content reply_element;
    t ← find_element sel_comment_time reply_element;
    original_comment_element ← find_element sel_nonreply_entity item;
    o ← find_element sel_main_content original_comment_element;
    mret (Comment post_author post_content is_reply (Some (text o)) (text c) (text t))
  else
    comment_element ← find_element sel_comment_entity item;
    c ← find_element sel_main_content comment_element;
    t ← find_element sel_comment_time comment_element;
    mret (Comment post_author post_content is_reply None (text c) (text t)).

(** Lines 52-73: the body of the inner [try].  The first component is the
    binding of the local [post_author] when the body ends or raises: it is
    assigned only once the actor title has been found, and otherwise keeps
    what an earlier iteration left ([None]: never assigned). *)
Definition comment_try_body (is_reply : bool) (item : element)
    (bound : option string) : option string * result comment :=
  match find_element sel_actor_title item with
  | inl e => (bound, inl e)
  | inr a =>
    let post_author := text a in
    let post_content :=
      match find_elements sel_text_block item with
      | [] => EmptyString
      | b :: _ => text b
      end in
    (Some post_author, comment_data is_reply item post_author post_content)
  end.

(** The locals of [_scrape_comments] that the loop reads and writes. *)
Record locals := Locals {
  comments : list comment;
  post_author_var : option string;
  log : list log_record
}.

(** Lines 42-77: the [for] loop.  The second component is the exception
    that leaves the loop, if any: the handler on line 77 formats
    [post_author], which raises when the name was never assigned. *)
Fixpoint comments_loop (items : list element) (st : locals) : locals * option exn :=
  match items with
  | [] => (st, None)
  | item :: rest =>
    if bool_decide (MAX_COMMENTS ≤ Z.of_nat (length (comments st))) then (st, None)
    else
      let is_reply := classify item in
      let '(bound, outcome) := comment_try_body is_reply item (post_author_var st) in
      match outcome with
      | inr c => comments_loop rest (Locals (comments st ++ [c]) bound (log st))
      | inl e =>
        match bound with
        | Some a =>
          comments_loop rest
            (Locals (comments st) bound
               (log st ++ [Warning ("Could not parse a comment/reply item for " +:+ a) (Some e)]))
        | None => (Locals (comments st) bound (log st), Some (UnboundLocalError "post_author"))
        end
      end
  end.

(** [_scrape_comments(driver)] on the document the driver shows, with the
    records it logs. *)
Definition _scrape_comments_log (doc : element) : list comment * list log_record :=
  match driver_find_element sel_container doc with
  | inl e => ([], [Error "Error scraping comments list: " e])
  | inr comment_list =>
    match comments_loop (find_elements sel_feed_item comment_list) (Locals [] None []) with
    | (st, None) => (comments st, log st)
    | (st, Some e) => (comments st, log st ++ [Error "Error scraping comments list: " e])
    end
  end.

Definition _scrape_comments (doc : element) : list comment :=
  fst (_scrape_comments_log doc).

(** Lines 93-102: the body of the [try] of [_scrape_reactions]. *)
Definition reaction_try_body (item : element) : result reaction :=
  a ← find_element sel_actor_title item;
  c ← find_element sel_text_block item;
  r ← find_element sel_header_text item;
  t ← find_element sel_sub_description item;
  mret (Reaction (text a) (text c) (text r) (text t)).

(** Lines 89-104: the [for] loop; [except Exception: pass]. *)
Fixpoint reactions_loop (items : list element) (reactions : list reaction) : list reaction :=
  match items with
  | [] => reactions
  | item :: rest =>
    if bool_decide (MAX_REACTIONS ≤ Z.of_nat (length reactions)) then reactions
    else
      match reaction_try_body item with
      | inr r => reactions_loop rest (reactions ++ [r])
      | inl _ => reactions_loop rest reactions
      end
  end.

Definition _scrape_reactions_log (doc : element) : list reaction * list log_record :=
  match driver_find_element sel_container doc with
  | inl e => ([], [Error "Error scraping reactions list: " e])
  | inr reaction_list =>
    (reactions_loop (find_elements sel_feed_item reaction_list) [], [])
  end.

Definition _scrape_reactions (doc : element) : list reaction :=
  fst (_scrape_reactions_log doc).

(** *** The page under scrolling *)

(** One measurement of the live page: [document.body.scrollHeight] and the
    rendered document. *)
Record snapshot := Snapshot {
  scrollHeight : Z;
  document : element
}.

(** The browser session.  [page k] is what the open page shows once [k]
    scroll-to-bottom actions have settled (lazy loading is driven by the
    scrolls); [clock] counts the time units spent in [time.sleep] and in
    explicit waits. *)
Record driver := Driver {
  page : nat → snapshot;
  scrolls : nat;
  scrollY : Z;
  clock : Z
}.

Definition current (d : driver) : snapshot := page d (scrolls d).

(** [driver.execute_script("window.scrollTo(0, document.body.scrollHeight);")] *)
Definition scroll_to_bottom (d : driver) : driver :=
  Driver (page d) (S (scrolls d)) (scrollHeight (current d)) (clock d).

(** [time.sleep(t)] *)
Definition sleep (t : Z) (d : driver) : driver :=
  Driver (page d) (scrolls d) (scrollY d) (clock d + t).

(** Lines 24-34: [while True].  The loop has no bound of its own, so the
    model takes fuel: one unit per iteration, [None] when it runs out. *)
Fixpoint scroll_loop (fuel : nat) (d : driver) (max_items last_height : Z) : option driver :=
  match fuel with
  | O => None
  | S fuel' =>
    let items := driver_find_elements sel_feed_item (document (current d)) in
    if bool_decide (max_items ≤ Z.of_nat (length items)) then Some d
    else
      let d' := sleep 2 (scroll_to_bottom d) in
      let new_height := scrollHeight (current d') in
      if bool_decide (new_height = last_height) then Some d'
      else scroll_loop fuel' d' max_items new_height
  end.

Definition _scroll_for_items (fuel : nat) (d : driver) (max_items : Z) : option driver :=
  let last_height := scrollHeight (current d) in
  scroll_loop fuel d max_items last_height.

(** *** The orchestrator *)

Section Orchestrator.

(** What the session can reach: [web url] is the page [driver.get(url)]
    opens, or [None] when the navigation raises. *)
Variable web : string → option (nat → snapshot).

(** [safe_get_driver()] and [handle_tool_error(e, context)] belong to
    [linkedin_mcp_server.error_handler]; the first hands out the cached
    session or raises, the second owns the shape of the error response. *)
Variable safe_get_driver : result driver.
Variable error_response : Type.
Variable handle_tool_error : exn → string → error_response.

Inductive response :=
| Activities (comments : list comment) (reactions : list reaction)
| ToolError (r : error_response).

(** [driver.get(url)] *)
Definition get (url : string) (d : driver) : result driver :=
  match web url with
  | None => inl (WebDriverException url)
  | Some p => inr (Driver p 0 0 (clock d))
  end.

(** [WebDriverWait(driver, timeout).until(EC.presence_of_element_located(sel))]:
    the page changes with scrolls only, so every poll sees the same
    document; the wait returns at once or uses up its budget. *)
Definition wait_until_present (timeout : Z) (sel : selector) (d : driver)
    : driver * result element :=
  match driver_find_element sel (document (current d)) with
  | inr e => (d, inr e)
  | inl _ => (sleep timeout d, inl TimeoutException)
  end.

Definition comments_url (linkedin_username : string) : string :=
  "https://www.linkedin.com/in/" +:+ linkedin_username +:+ "/recent-activity/comments/".

Definition reactions_url (linkedin_username : string) : string :=
  "https://www.linkedin.com/in/" +:+ linkedin_username +:+ "/recent-activity/reactions/".

(** Lines 136-143: the body of the comments [try], with the session as it
    is left when the body ends or raises. *)
Definition comments_try_body (fuel : nat) (linkedin_username : string) (d : driver)
    : option (driver * result (list comment * list log_record)) :=
  match get (comments_url linkedin_username) d with
  | inl e => Some (d, inl e)
  | inr d1 =>
    match wait_until_present 20 sel_container d1 with
    | (d2, inl e) => Some (d2, inl e)
    | (d2, inr _) =>
      d3 ← _scroll_for_items fuel d2 MAX_COMMENTS;
      Some (d3, inr (_scrape_comments_log (document (current d3))))
    end
  end.

(** Lines 151-157. *)
Definition reactions_try_body (fuel : nat) (linkedin_username : string) (d : driver)
    : option (driver * result (list reaction * list log_record)) :=
  match get (reactions_url linkedin_username) d with
  | inl e => Some (d, inl e)
  | inr d1 =>
    match wait_until_present 20 sel_container d1 with
    | (d2, inl e) => Some (d2, inl e)
    | (d2, inr _) =>
      d3 ← _scroll_for_items fuel d2 MAX_REACTIONS;
      Some (d3, inr (_scrape_reactions_log (document (current d3))))
    end
  end.

(** Lines 135-147: [try] ... [except TimeoutException] ... [except Exception];
    [activities["comments"]] keeps its initial [[]] unless the body
    returns. *)
Definition comments_phase (fuel : nat) (linkedin_username : string) (d : driver)
    : option (driver * list comment * list log_record) :=
  '(d', outcome) ← comments_try_body fuel linkedin_username d;
  Some match outcome with
       | inr (cs, l) => (d', cs, l)
       | inl TimeoutException =>
         (d', [], [Warning ("Timeout waiting for comments page for " +:+ linkedin_username) None])
       | inl e =>
         (d', [], [Error "An unexpected error occurred while scraping comments: " e])
       end.

(** Lines 150-161. *)
Definition reactions_phase (fuel : nat) (linkedin_username : string) (d : driver)
    : option (driver * list reaction * list log_record) :=
  '(d', outcome) ← reactions_try_body fuel linkedin_username d;
  Some match outcome with
       | inr (rs, l) => (d', rs, l)
       | inl TimeoutException =>
         (d', [], [Warning ("Timeout waiting for reactions page for " +:+ linkedin_username) None])
       | inl e =>
         (d', [], [Error "An unexpected error occurred while scraping reactions: " e])
       end.

(** [get_person_activity(linkedin_username)]: the response and the log
    records of the call.  [fuel] bounds each of the two scroll loops; the
    two [print] calls write to standard output only and are left out. *)
Definition get_person_activity (fuel : nat) (linkedin_username : string)
    : option (response * list log_record) :=
  match safe_get_driver with
  | inl e => Some (ToolError (handle_tool_error e "get_person_activity"), [])
  | inr d =>
    '(d1, cs, l1) ← comments_phase fuel linkedin_username d;
    '(d2, rs, l2) ← reactions_phase fuel linkedin_username d1;
    Some (Activities cs rs, l1 ++ l2)
  end.

End Orchestrator.

Arguments Activities {error_response} comments reactions.
Arguments ToolError {error_response} r.

End Activity.

(** ** posts.py *)

Module Posts.

(** The values of a saved post (a flat JSON object). *)
Inductive value :=
| VNone
| VBool (b : bool)
| VInt (z : Z)
| VStr (s : string).

(** [DATA_FILE]: [None] while the file does not exist, otherwise the list
    [json.dump] wrote. *)
Definition data_file : Type := option (list (gmap string value)).

(** *** [datetime.strptime(s, "%Y-%m-%d")] *)

Record datetime := Datetime { year : Z; month : Z; day : Z }.

Definition digit (c : ascii) : option Z :=
  let n := nat_of_ascii c in
  if (48 <=? n)%nat && (n <=? 57)%nat then Some (Z.of_nat n - 48) else None.

Definition digit_in (lo hi : Z) (c : ascii) : option Z :=
  d ← digit c;
  if bool_decide (lo ≤ d ≤ hi) then Some d else None.

(** [(?P<Y>\d\d\d\d)] *)
Definition match_Y (s : string) : option (Z * string) :=
  match s with
  | String a (String b (String c (String d rest))) =>
    a ← digit a; b ← digit b; c ← digit c; d ← digit d;
    Some (1000 * a + 100 * b + 10 * c + d, rest)
  | _ => None
  end.

(** The alternatives of [(?P<m>1[0-2]|0[1-9]|[1-9])], in the order the
    matcher tries them. *)
Definition alternatives_m (s : string) : list (Z * string) :=
  match s with
  | String a rest =>
    match rest with
    | String b rest' =>
      (if bool_decide (a = "1"%char)
       then from_option (λ d, [(10 + d, rest')]) [] (digit_in 0 2 b) else [])
      ++ (if bool_decide (a = "0"%char)
          then from_option (λ d, [(d, rest')]) [] (digit_in 1 9 b) else [])
    | EmptyString => []
    end
    ++ from_option (λ d, [(d, rest)]) [] (digit_in 1 9 a)
  | EmptyString => []
  end.

(** The alternatives of [(?P<d>3[0-1]|[1-2]\d|0[1-9]|[1-9]| [1-9])]. *)
Definition alternatives_d (s : string) : list (Z * string) :=
  match s with
  | String a rest =>
    match rest with
    | String b rest' =>
      (if bool_decide (a = "3"%char)
       then from_option (λ d, [(30 + d, rest')]) [] (digit_in 0 1 b) else [])
      ++ from_option (λ t, from_option (λ d, [(10 * t + d, rest')]) [] (digit b)) []
           (digit_in 1 2 a)
      ++ (if bool_decide (a = "0"%char)
          then from_option (λ d, [(d, rest')]) [] (digit_in 1 9 b) else [])
    | EmptyString => []
    end
    ++ from_option (λ d, [(d, rest)]) [] (digit_in 1 9 a)
    ++ match rest with
       | String b rest' =>
         if bool_decide (a = " "%char)
         then from_option (λ d, [(d, rest')]) [] (digit_in 1 9 b) else []
       | EmptyString => []
       end
  | EmptyString => []
  end.

Definition match_dash (s : string) : option string :=
  match s with
  | String c rest => if bool_decide (c = "-"%char) then Some rest else None
  | EmptyString => None
  end.

(** [format_regex.match(data_string)]: the first way through the
    alternatives that matches the whole pattern, with what is left of the
    string. *)
Definition match_ymd (s : string) : option (datetime * string) :=
  '(y, s1) ← match_Y s;
  s2 ← match_dash s1;
  head (omap (λ '(m, s3),
               s4 ← match_dash s3;
               '(d, s5) ← head (alternatives_d s4);
               Some (Datetime y m d, s5))
             (alternatives_m s2)).

Definition is_leap (y : Z) : bool :=
  bool_decide (y mod 4 = 0) && (negb (bool_decide (y mod 100 = 0)) || bool_decide (y mod 400 = 0)).

Definition days_in_month (y m : Z) : Z :=
  if bool_decide (m = 2) then (if is_leap y then 29 else 28)
  else if bool_decide (m = 4 ∨ m = 6 ∨ m = 9 ∨ m = 11) then 30
  else 31.

Definition strptime_ymd (s : string) : result datetime :=
  match match_ymd s with
  | None => inl (ValueError s)
  | Some (dt, rest) =>
    if negb (bool_decide (rest = EmptyString)) then inl (ValueError s)
    else if bool_decide (1 ≤ year dt ∧ day dt ≤ days_in_month (year dt) (month dt))
    then inr dt
    else inl (ValueError s)
  end.

(** [a <= b] on naive datetimes at midnight *)
Definition datetime_le (a b : datetime) : bool :=
  bool_decide (year a < year b
               ∨ (year a = year b
                  ∧ (month a < month b ∨ (month a = month b ∧ day a ≤ day b)))).

(** *** [fetch_and_save_linkedin_posts], line 59 *)

(** The value stored under the key Posted Date for one post of the API
    response: the field posted, or the empty string when the post has none,
    split on spaces, first piece. *)
Definition posted_date (post : gmap string value) : result value :=
  match default (VStr EmptyString) (post !! "posted") with
  | VStr s =>
    match Str.split " " s with
    | w :: _ => inr (VStr w)
    | [] => inl IndexError
    end
  | _ => inl (AttributeError "split")
  end.

(** *** [search_posts] *)

Inductive search_response :=
| SearchNoData (message : string) (posts : list (gmap string value))
| SearchResults (keywords : list string) (mode : string) (total_results : nat)
    (posts : list (gmap string value)) (has_more : bool).

Section CaseMapping.

(** [str.lower] and [str.upper].  Python maps case by the Unicode
    character database ([CAFÉ] lower-cases to [café]); the database is
    taken as given, and the search is defined for whatever the two
    methods compute. *)
Variable lower upper : string → string.

(** The lower-cased field Text of a post, the empty string when the post
    has none. *)
Definition lowered_text (post : gmap string value) : result string :=
  match default (VStr EmptyString) (post !! "Text") with
  | VStr s => inr (lower s)
  | _ => inl (AttributeError "lower")
  end.

(** Lines 121-128. *)
Fixpoint search_loop (keywords : list string) (mode : string)
    (posts filtered_posts : list (gmap string value)) : result (list (gmap string value)) :=
  match posts with
  | [] => inr filtered_posts
  | post :: rest =>
    text ← lowered_text post;
    if bool_decide (upper mode = "AND") then
      if forallb (λ keyword, Str.contains (lower keyword) text) keywords
      then search_loop keywords mode rest (filtered_posts ++ [post])
      else search_loop keywords mode rest filtered_posts
    else
      if existsb (λ keyword, Str.contains (lower keyword) text) keywords
      then search_loop keywords mode rest (filtered_posts ++ [post])
      else search_loop keywords mode rest filtered_posts
  end.

Definition search_posts (file : data_file) (keywords : list string) (mode : string)
    : result search_response :=
  match file with
  | None => inr (SearchNoData "No data found. Fetch posts first." [])
  | Some posts =>
    filtered_posts ← search_loop keywords mode posts [];
    mret (SearchResults keywords mode (length filtered_posts) (take 5 filtered_posts)
            (bool_decide (5 < length filtered_posts)%nat))
  end.

End CaseMapping.

(** *** [get_posts_by_date] *)

Inductive date_response :=
| DateNoData (message : string) (posts : list (gmap string value))
| DateMessage (message : string)
| DateResults (start_date end_date : string) (total_results : nat)
    (posts : list (gmap string value)).

(** [datetime.strptime(post["Posted Date"], "%Y-%m-%d")] *)
Definition posted_datetime (post : gmap string value) : result datetime :=
  match post !! "Posted Date" with
  | None => inl (KeyError "Posted Date")
  | Some (VStr s) => strptime_ymd s
  | Some _ => inl (TypeError "strptime() argument 1 must be str")
  end.

(** Line 187: the list comprehension. *)
Fixpoint date_filter (start_dt end_dt : datetime) (posts : list (gmap string value))
    : result (list (gmap string value)) :=
  match posts with
  | [] => inr []
  | post :: rest =>
    dt ← posted_datetime post;
    kept ← date_filter start_dt end_dt rest;
    mret (if datetime_le start_dt dt && datetime_le dt end_dt then post :: kept else kept)
  end.

Definition get_posts_by_date (file : data_file) (start_date end_date : string)
    : result date_response :=
  match file with
  | None => inr (DateNoData "No data found. Fetch posts first." [])
  | Some posts =>
    match (start_dt ← strptime_ymd start_date;
           end_dt ← strptime_ymd end_date;
           mret (start_dt, end_dt)) with
    | inl (ValueError _) => inr (DateMessage "Invalid date format. Use 'YYYY-MM-DD'.")
    | inl e => inl e
    | inr (start_dt, end_dt) =>
      filtered_posts ← date_filter start_dt end_dt posts;
      mret (DateResults start_date end_date (length filtered_posts) filtered_posts)
    end
  end.

End Posts.

(** ** What one feed item contributes *)

Module Items.
Import Dom Activity.

(** The record an item contributes to the reactions, if its four lookups
    succeed. *)
Definition reaction_of (item : element) : option reaction :=
  match reaction_try_body item with
  | inr r => Some r
  | inl _ => None
  end.

(** The record an item contributes to the comments, if the body of the
    inner [try] runs to its end. *)
Definition comment_of (item : element) : option comment :=
  match (comment_try_body (classify item) item None).2 with
  | inr c => Some c
  | inl _ => None
  end.

Definition has_actor_title (item : element) : bool :=
  match find_element sel_actor_title item with
  | inr _ => true
  | inl _ => false
  end.

(** The warning of line 77 can be formatted at every failing item: none
    of them is reached before [post_author] has been assigned ([bound]
    tells whether it is assigned on entry). *)
Fixpoint handler_safe (bound : bool) (items : list element) : bool :=
  match items with
  | [] => true
  | item :: rest =>
    if has_actor_title item then handler_safe true rest
    else bound && handler_safe bound rest
  end.

(** The number of feed items the open page shows after [k] scrolls, as
    [_scroll_for_items] counts them, and its measured height. *)
Definition item_count (d : driver) (k : nat) : Z :=
  Z.of_nat (length (driver_find_elements sel_feed_item (document (page d k)))).

Definition height (d : driver) (k : nat) : Z := scrollHeight (page d k).

(** What holds of the session the loop returns: it is the session it
    started from, scrolled and paused some number of times, and it stopped
    at the first count that met the target or the first height that
    repeated. *)
Definition stopped (d : driver) (max_items : Z) (d' : driver) : Prop :=
  page d' = page d
  ∧ (scrolls d ≤ scrolls d')%nat
  ∧ clock d' = clock d + 2 * Z.of_nat (scrolls d' - scrolls d)
  ∧ (max_items ≤ item_count d (scrolls d')
     ∨ ((scrolls d < scrolls d')%nat
        ∧ height d (scrolls d') = height d (scrolls d' - 1)))
  ∧ ∀ k, (scrolls d ≤ k < scrolls d')%nat →
         item_count d k < max_items
         ∧ ((scrolls d < k)%nat → height d k ≠ height d (k - 1)).

(** The sessions the loop of [_scroll_for_items] goes through when it is
    started from [d0]: the same page, scrolled and paused some more times,
    with no count so far meeting the target and no height so far
    repeating. *)
Definition scrolling (d0 : driver) (max_items : Z) (d : driver) : Prop :=
  page d = page d0
  ∧ (scrolls d0 ≤ scrolls d)%nat
  ∧ clock d = clock d0 + 2 * Z.of_nat (scrolls d - scrolls d0)
  ∧ (∀ k, (scrolls d0 ≤ k < scrolls d)%nat →
          item_count d0 k < max_items
          ∧ ((scrolls d0 < k)%nat → height d0 k ≠ height d0 (k - 1)))
  ∧ ((scrolls d0 < scrolls d)%nat →
     height d0 (scrolls d) ≠ height d0 (scrolls d - 1)).

End Items.

(** ** Pages used as examples *)

Module Fixtures.
Import Dom Activity.

Definition leaf (tag class text : string) : element :=
  Element tag [class] text [].

Definition box (tag : string) (classes : list string) (children : list element) : element :=
  Element tag classes EmptyString children.

Definition comment_entity (classes : list string) (comment time : string) : element :=
  box "article" classes
    [leaf "span" "comments-comment-item__main-content" comment;
     leaf "time" "comments-comment-meta__data" time].

(** A post with a direct comment. *)
Definition direct_item (author content comment time : string) : element :=
  box "div" ["feed-shared-update-v2"]
    [leaf "span" "update-components-header__text-view" "commented on this";
     leaf "span" "update-components-actor__title" author;
     leaf "div" "update-components-text" content;
     comment_entity ["comments-comment-entity"] comment time].

(** A post with a reply under somebody's comment. *)
Definition reply_item (author content original reply time : string) : element :=
  box "div" ["feed-shared-update-v2"]
    [leaf "span" "update-components-header__text-view" "replied to a comment on this";
     leaf "span" "update-components-actor__title" author;
     leaf "div" "update-components-text" content;
     comment_entity ["comments-comment-entity"] original "2d";
     comment_entity ["comments-comment-entity"; "comments-comment-entity--reply"] reply time].

(** A feed item whose actor title is missing. *)
Definition untitled_item (content comment time : string) : element :=
  box "div" ["feed-shared-update-v2"]
    [leaf "div" "update-components-text" content;
     comment_entity ["comments-comment-entity"] comment time].

(** A feed item whose comment entity is missing. *)
Definition uncommented_item (author content : string) : element :=
  box "div" ["feed-shared-update-v2"]
    [leaf "span" "update-components-actor__title" author;
     leaf "div" "update-components-text" content].

(** A post somebody reacted to; [label] is the header text. *)
Definition reaction_item (author content label time : string) : element :=
  box "div" ["feed-shared-update-v2"]
    [leaf "span" "update-components-header__text-view" label;
     leaf "span" "update-components-actor__title" author;
     leaf "div" "update-components-text" content;
     leaf "span" "update-components-actor__sub-description" time].

(** The same with the header text (the reaction label) missing. *)
Definition unlabelled_reaction_item (author content time : string) : element :=
  box "div" ["feed-shared-update-v2"]
    [leaf "span" "update-components-actor__title" author;
     leaf "div" "update-components-text" content;
     leaf "span" "update-components-actor__sub-description" time].

(** A document whose scroll container holds [items]. *)
Definition feed_page (items : list element) : element :=
  box "html" []
    [box "body" [] [box "div" ["scaffold-finite-scroll__content"] items]].

(** A document in which the scroll container never appeared. *)
Definition blank_page : element := box "html" [] [box "body" [] []].

Definition item1 := direct_item "Ada" "Post one" "Nice" "1h".
Definition item2 := reply_item "Bob" "Post two" "First!" "Agreed" "3h".
Definition item3 := direct_item "Cyd" "Post three" "Thanks" "5h".
Definition item4 := direct_item "Dee" "Post four" "Wow" "1d".
Definition item5 := direct_item "Eli" "Post five" "Great" "2d".

(** Five items, the third without its comment entity. *)
Definition batch_third_malformed : list element :=
  [item1; item2; uncommented_item "Cyd" "Post three"; item4; item5].

(** Five items, the first without its actor title. *)
Definition batch_first_malformed : list element :=
  [untitled_item "Post one" "Nice" "1h"; item2; item3; item4; item5].

(** A page that renders three more items with every scroll, up to [stop]
    scrolls, and nothing new afterwards. *)
Definition lazy_page (stop : nat) (item : element) : nat → snapshot :=
  λ k, let shown := (k `min` stop)%nat in
       Snapshot (1000 * Z.of_nat (S shown)) (feed_page (replicate (3 * S shown) item)).

(** A page on which the scroll container never appears. *)
Definition stuck_page : nat → snapshot := λ _, Snapshot 600 blank_page.

Definition fresh_driver (p : nat → snapshot) : driver := Driver p 0 0 0.

(** A profile whose comments page never shows the scroll container and
    whose reactions page shows three reactions; no other address loads. *)
Definition ada_web : string → option (nat → snapshot) := λ url,
  if bool_decide (url = comments_url "ada") then Some stuck_page
  else if bool_decide (url = reactions_url "ada")
       then Some (lazy_page 0 (reaction_item "Bob" "A post" "Ada likes this" "4h"))
       else None.

(** Saved posts: two with a date, one saved from a fetched post that had
    no [posted] field. *)
Definition post_march : gmap string Posts.value :=
  {[ "Text" := Posts.VStr "Hiring Rust engineers"; "Posted Date" := Posts.VStr "2024-03-01" ]}.

Definition post_june : gmap string Posts.value :=
  {[ "Text" := Posts.VStr "Our summer release"; "Posted Date" := Posts.VStr "2024-06-15" ]}.

Definition post_undated : gmap string Posts.value :=
  {[ "Text" := Posts.VStr "An old note"; "Posted Date" := Posts.VStr EmptyString ]}.

End Fixtures.

(** ** posts.py: the paging and ranking tools *)

Module PostsTools.
Import Posts.

(** [DATA_FILE] as [get_saved_posts] tells it apart: absent, present but
    not JSON, or the list [json.dump] wrote. *)
Inductive disk :=
| Missing
| Corrupted
| Saved (posts : list (gmap string value)).

(** An index of a slice, adjusted to a sequence of length [n] as Python
    does: negative indices count from the end, and the result is clamped
    to [0..n]. *)
Definition adjust_index (n i : Z) : Z :=
  if bool_decide (i < 0) then Z.max (i + n) 0 else Z.min i n.

(** [l[i:j]] *)
Definition slice {A} (l : list A) (i j : Z) : list A :=
  let n := Z.of_nat (length l) in
  let lo := adjust_index n i in
  let hi := adjust_index n j in
  take (Z.to_nat (hi - lo)) (drop (Z.to_nat lo) l).

(** *** [get_saved_posts] *)

Inductive saved_response :=
| SavedMessage (message : string) (posts : list (gmap string value))
| SavedPage (posts : list (gmap string value)) (total_posts : nat) (has_more : bool).

Definition get_saved_posts (file : disk) (start limit : Z) : saved_response :=
  match file with
  | Missing =>
    SavedMessage
      "No data found. Fetch posts first using fetch_and_save_linkedin_posts()." []
  | Corrupted => SavedMessage "Error reading data file. JSON might be corrupted." []
  | Saved posts =>
    let total_posts := length posts in
    let limit := Z.min limit 5 in
    let paginated_posts := slice posts start (start + limit) in
    SavedPage paginated_posts total_posts
      (bool_decide (start + limit < Z.of_nat total_posts))
  end.

(** *** [get_top_posts] *)

(** The sort key [x.get(metric, 0)]: a number ([bool] is a subclass of
    [int]), a string, or [None]. *)
Inductive key :=
| KNum (z : Z)
| KStr (s : string)
| KNone.

Definition metric_key (metric : string) (post : gmap string value) : key :=
  match default (VInt 0) (post !! metric) with
  | VInt z => KNum z
  | VBool b => KNum (if b then 1 else 0)
  | VStr s => KStr s
  | VNone => KNone
  end.

Definition is_num (k : key) : bool := match k with KNum _ => true | _ => false end.
Definition is_str (k : key) : bool := match k with KStr _ => true | _ => false end.

(** [k1 > k2] where Python defines it: between numbers, and between
    strings. *)
Definition key_gt (k1 k2 : key) : bool :=
  match k1, k2 with
  | KNum a, KNum b => bool_decide (b < a)
  | KStr a, KStr b => String.ltb b a
  | _, _ => false
  end.

(** Stable insertion into a list in descending order: [x], which stood
    before the elements of [l], goes before those that are not greater. *)
Fixpoint insert_desc {A} (gt : A → A → bool) (x : A) (l : list A) : list A :=
  match l with
  | [] => [x]
  | y :: l' => if gt y x then y :: insert_desc gt x l' else x :: y :: l'
  end.

Definition sort_desc {A} (gt : A → A → bool) (l : list A) : list A :=
  foldr (insert_desc gt) [] l.

(** [sorted(posts, key=lambda x: x.get(metric, 0), reverse=True)]: the
    stable descending order of the keys.  A sort of two or more elements
    compares every element with some other one, and Python refuses to
    compare [None] with anything and a string with a number. *)
Definition sorted_by_metric (metric : string) (posts : list (gmap string value))
    : result (list (gmap string value)) :=
  let keys := metric_key metric <$> posts in
  if bool_decide (length posts ≤ 1)%nat then inr posts
  else if forallb is_num keys || forallb is_str keys
  then inr (sort_desc (λ p q, key_gt (metric_key metric p) (metric_key metric q)) posts)
  else inl (TypeError "'<' not supported between instances").

Inductive top_response :=
| TopNoData (message : string) (posts : list (gmap string value))
| TopMessage (message : string)
| TopPosts (metric : string) (posts : list (gmap string value)).

Definition get_top_posts (file : data_file) (metric : string) (top_n : Z)
    : result top_response :=
  match file with
  | None => inr (TopNoData "No data found. Fetch posts first." [])
  | Some posts =>
    if bool_decide (metric ∈ ["Like Count"; "Total Reactions"]) then
      sorted_posts ← sorted_by_metric metric posts;
      mret (TopPosts metric (slice sorted_posts 0 top_n))
    else inr (TopMessage "Invalid metric. Use 'Like Count' or 'Total Reactions'.")
  end.

End PostsTools.

(** ** Auxiliary notions for the properties *)

Module Aux.
Import Dom Activity Posts.

(** The same session with its clock moved by [delta]. *)
Definition shift_clock (delta : Z) (d : driver) : driver :=
  Driver (page d) (scrolls d) (scrollY d) (clock d + delta).

(** The numeric sort key of a post. *)
Definition metric_num (metric : string) (post : gmap string value) : Z :=
  match PostsTools.metric_key metric post with
  | PostsTools.KNum z => z
  | _ => 0
  end.

Section Matching.

Variable lower upper : string → string.

(** A post matches the lower-cased keywords in AND, respectively OR,
    mode. *)
Definition matches_all (keywords : list string) (post : gmap string value) : bool :=
  match lowered_text lower post with
  | inr text => forallb (λ keyword, Str.contains (lower keyword) text) keywords
  | inl _ => false
  end.

Definition matches_any (keywords : list string) (post : gmap string value) : bool :=
  match lowered_text lower post with
  | inr text => existsb (λ keyword, Str.contains (lower keyword) text) keywords
  | inl _ => false
  end.

(** The test [search_posts] applies to a post in the given mode. *)
Definition matcher (keywords : list string) (mode : string)
    (post : gmap string value) : bool :=
  if bool_decide (upper mode = "AND") then matches_all keywords post
  else matches_any keywords post.

End Matching.

(** The field Text of every post is a string where it is present. *)
Definition texts_are_strings (posts : list (gmap string value)) : Prop :=
  Forall (λ post, ∃ s, default (VStr EmptyString) (post !! "Text") = VStr s) posts.

(** The date of a post lies between two dates, bounds included. *)
Definition in_range (start_dt end_dt : datetime) (post : gmap string value) : bool :=
  match posted_datetime post with
  | inr dt => datetime_le start_dt dt && datetime_le dt end_dt
  | inl _ => false
  end.

(** A calendar date as [datetime] accepts it. *)
Definition valid_date (dt : datetime) : Prop :=
  1 ≤ year dt ≤ 9999 ∧ 1 ≤ month dt ≤ 12 ∧ 1 ≤ day dt ≤ days_in_month (year dt) (month dt).

(** The posts a response of [get_saved_posts] carries. *)
Definition page_posts (r : PostsTools.saved_response) : list (gmap string value) :=
  match r with
  | PostsTools.SavedMessage _ posts => posts
  | PostsTools.SavedPage posts _ _ => posts
  end.

(** A string without a space. *)
Fixpoint no_space (s : string) : bool :=
  match s with
  | EmptyString => true
  | String c s' => negb (bool_decide (c = " "%char)) && no_space s'
  end.

End Aux.

(** ** More pages and files used as examples *)

Module MoreFixtures.
Import Dom Activity Posts.

Definition liked (text : string) (likes : Z) : gmap string value :=
  {[ "Text" := VStr text; "Like Count" := VInt likes ]}.

(** Seven saved posts, two of them with the same number of likes. *)
Definition seven_posts : list (gmap string value) :=
  [liked "one" 3; liked "two" 9; liked "three" 3; liked "four" 12;
   liked "five" 0; liked "six" 7; liked "seven" 1].

(** A page that grows with every scroll and never shows a feed item. *)
Definition endless_page : nat → snapshot :=
  λ k, Snapshot (1000 * Z.of_nat (S k)) (Fixtures.feed_page []).

(** A profile whose two activity pages never show the scroll container. *)
Definition silent_web : string → option (nat → snapshot) := λ url,
  if bool_decide (url = comments_url "bob") then Some Fixtures.stuck_page
  else if bool_decide (url = reactions_url "bob") then Some Fixtures.stuck_page
  else None.

(** A feed item that has an actor title and a comment but no text block. *)
Definition contentless_item : element :=
  Fixtures.box "div" ["feed-shared-update-v2"]
    [Fixtures.leaf "span" "update-components-header__text-view" "likes this";
     Fixtures.leaf "span" "update-components-actor__title" "Flo";
     Fixtures.leaf "span" "update-components-actor__sub-description" "6h";
     Fixtures.comment_entity ["comments-comment-entity"] "So true" "6h"].

(** A reply whose reply entity stands ahead of the comment it answers. *)
Definition reply_first_item : element :=
  Fixtures.box "div" ["feed-shared-update-v2"]
    [Fixtures.leaf "span" "update-components-header__text-view" "Gus replied to a comment";
     Fixtures.leaf "span" "update-components-actor__title" "Gus";
     Fixtures.comment_entity ["comments-comment-entity"; "comments-comment-entity--reply"]
       "Well said" "1h";
     Fixtures.comment_entity ["comments-comment-entity"] "The first word" "2h"].

End MoreFixtures.

(** * Properties *)

(** ** Substring test *)

Module StrFacts.
Import Str.

Lemma app_nil (s : string) : EmptyString +:+ s = s.
Proof. reflexivity. Qed.

Lemma app_cons (c : ascii) (a b : string) : String c a +:+ b = String c (a +:+ b).
Proof. reflexivity. Qed.

Lemma prefix_iff (p s : string) :
  String.prefix p s = true ↔ ∃ b, s = p +:+ b.
Proof.
  revert s. induction p as [|c p IH]; intros s.
  - split; [intros _; by exists s | by destruct s].
  - destruct s as [|c' s]; simpl.
    + split; [done | intros [b Hb]; discriminate].
    + destruct (Ascii.ascii_dec c c') as [->|Hne].
      * rewrite IH. split; intros [b Hb]; exists b; rewrite ?app_cons in *; congruence.
      * split; [done | intros [b Hb]; rewrite app_cons in Hb; congruence].
Qed.

Lemma contains_nil (needle : string) :
  contains needle EmptyString = String.prefix needle EmptyString || false.
Proof. reflexivity. Qed.

Lemma contains_cons (needle : string) (c : ascii) (hay : string) :
  contains needle (String c hay) = String.prefix needle (String c hay) || contains needle hay.
Proof. reflexivity. Qed.

(** [needle in hay] holds exactly when [hay] is [a + needle + b]. *)
Lemma contains_iff (needle hay : string) :
  contains needle hay = true ↔ ∃ a b, hay = a +:+ needle +:+ b.
Proof.
  induction hay as [|c hay IH]; [rewrite contains_nil | rewrite contains_cons].
  - rewrite orb_false_r, prefix_iff. split.
    + intros [b Hb]. by exists EmptyString, b.
    + intros [a [b Hab]]. destruct a; [by exists b | discriminate].
  - rewrite orb_true_iff, prefix_iff, IH. split.
    + intros [[b Hb] | [a [b Hab]]].
      * by exists EmptyString, b.
      * exists (String c a), b. by rewrite app_cons, Hab.
    + intros [a [b Hab]]. destruct a as [|c' a].
      * left. by exists b.
      * right. exists a, b. rewrite app_cons in Hab. congruence.
Qed.

End StrFacts.

(** ** The extractors *)

Module ActivityFacts.
Import Dom Activity Items.

Lemma reactions_loop_spec (items : list element) (acc : list reaction) :
  (length acc ≤ 20)%nat →
  reactions_loop items acc = take 20 (acc ++ omap reaction_of items).
Proof.
  revert acc. induction items as [|item rest IH]; intros acc Hacc; simpl.
  - rewrite app_nil_r, take_ge; [done | lia].
  - unfold MAX_REACTIONS, reaction_of. case_bool_decide as Hfull.
    + assert (length acc = 20%nat) as <- by lia. by rewrite take_app_length.
    + destruct (reaction_try_body item) as [e|r].
      * by apply IH.
      * rewrite IH, <- app_assoc; [done | rewrite length_app; simpl; lia].
Qed.

Lemma reaction_of_Some (item : element) (r : reaction) :
  reaction_of item = Some r ↔
  ∃ a c h t,
    find_element sel_actor_title item = inr a
    ∧ find_element sel_text_block item = inr c
    ∧ find_element sel_header_text item = inr h
    ∧ find_element sel_sub_description item = inr t
    ∧ r = Reaction (text a) (text c) (text h) (text t).
Proof.
  unfold reaction_of, reaction_try_body. split.
  - destruct (find_element sel_actor_title item) as [|a]; [done|].
    destruct (find_element sel_text_block item) as [|c]; [done|].
    destruct (find_element sel_header_text item) as [|h]; [done|].
    destruct (find_element sel_sub_description item) as [|t]; [done|].
    simpl. intros [= <-]. by exists a, c, h, t.
  - intros (a & c & h & t & -> & -> & -> & -> & ->). done.
Qed.

Lemma reaction_of_None (item : element) :
  reaction_of item = None ↔
  ∃ sel e,
    sel ∈ [sel_actor_title; sel_text_block; sel_header_text; sel_sub_description]
    ∧ find_element sel item = inl e.
Proof.
  unfold reaction_of, reaction_try_body. split.
  - destruct (find_element sel_actor_title item) as [e|a] eqn:Ha;
      [intros _; exists sel_actor_title, e; split; [set_solver | done] |].
    destruct (find_element sel_text_block item) as [e|c] eqn:Hc;
      [intros _; exists sel_text_block, e; split; [set_solver | done] |].
    destruct (find_element sel_header_text item) as [e|h] eqn:Hh;
      [intros _; exists sel_header_text, e; split; [set_solver | done] |].
    destruct (find_element sel_sub_description item) as [e|t] eqn:Ht;
      [intros _; exists sel_sub_description, e; split; [set_solver | done] |].
    done.
  - intros (sel & e & Hsel & He).
    repeat (apply elem_of_cons in Hsel as [-> | Hsel]; [rewrite ?He; simpl |]).
    all: try (by apply elem_of_nil in Hsel).
    all: repeat (destruct (find_element _ item); simpl; try done).
Qed.

(** The outcome of the inner [try] does not depend on what [post_author]
    held before. *)
Lemma comment_try_body_outcome (b : bool) (item : element) (bound : option string) :
  (comment_try_body b item bound).2 = (comment_try_body b item None).2.
Proof. unfold comment_try_body. by destruct (find_element sel_actor_title item). Qed.

Lemma comment_try_body_bound (b : bool) (item : element) (bound : option string) :
  (comment_try_body b item bound).1 =
  match find_element sel_actor_title item with
  | inr a => Some (text a)
  | inl _ => bound
  end.
Proof. unfold comment_try_body. by destruct (find_element sel_actor_title item). Qed.

Lemma comment_try_body_ok (b : bool) (item : element) (bound : option string) (c : comment) :
  (comment_try_body b item bound).2 = inr c → has_actor_title item = true.
Proof.
  unfold comment_try_body, has_actor_title.
  by destruct (find_element sel_actor_title item).
Qed.

(** Use the induction hypothesis at the state the loop continues from. *)
Ltac apply_IH IH :=
  match goal with
  | |- context [comments_loop _ ?s] => apply (IH s)
  end.

(** One iteration of the comments loop, by cases. *)
Lemma comments_loop_cons (item : element) (rest : list element) (st : locals) :
  comments_loop (item :: rest) st =
  if bool_decide (MAX_COMMENTS ≤ Z.of_nat (length (comments st))) then (st, None)
  else match (comment_try_body (classify item) item (post_author_var st)).2,
             (comment_try_body (classify item) item (post_author_var st)).1 with
       | inr c, bound => comments_loop rest (Locals (comments st ++ [c]) bound (log st))
       | inl e, Some a =>
         comments_loop rest
           (Locals (comments st) (Some a)
              (log st ++ [Warning ("Could not parse a comment/reply item for " +:+ a) (Some e)]))
       | inl e, None =>
         (Locals (comments st) None (log st), Some (UnboundLocalError "post_author"))
       end.
Proof.
  simpl. case_bool_decide; [done|].
  by destruct (comment_try_body _ _ _) as [[a|] [e|c]].
Qed.

Lemma comments_loop_bounded (items : list element) (st : locals) :
  (length (comments st) ≤ 20)%nat →
  (length (comments (comments_loop items st).1) ≤ 20)%nat.
Proof.
  revert st. induction items as [|item rest IH]; intros st Hst; [done|].
  rewrite comments_loop_cons. unfold MAX_COMMENTS.
  case_bool_decide as Hfull; [done|].
  destruct (comment_try_body _ _ _) as [[a|] [e|c]]; simpl; try done;
    apply IH; simpl; rewrite ?length_app; simpl; lia.
Qed.

(** Every record the loop leaves in [comments] was there before or is the
    contribution of one of the items. *)
Lemma comments_loop_origin (items : list element) (st : locals) (c : comment) :
  c ∈ comments (comments_loop items st).1 →
  c ∈ comments st ∨ ∃ item, item ∈ items ∧ comment_of item = Some c.
Proof.
  revert st. induction items as [|item rest IH]; intros st; [by left|].
  rewrite comments_loop_cons.
  case_bool_decide as Hfull; [by left|].
  destruct (comment_try_body _ _ _) as [bound [e|c']] eqn:Hbody; simpl.
  - destruct bound as [a|]; [|by left].
    intros [Hc | (i & Hi & Hof)]%IH; [by left|].
    right. exists i. split; [by apply elem_of_cons; right | done].
  - intros [Hc | (i & Hi & Hof)]%IH.
    + simpl in Hc. apply elem_of_app in Hc as [Hc | Hc]; [by left|].
      apply list_elem_of_singleton in Hc as ->.
      right. exists item. split; [by apply elem_of_cons; left|].
      unfold comment_of. rewrite <- comment_try_body_outcome with (bound := post_author_var st).
      by rewrite Hbody.
    + right. exists i. split; [by apply elem_of_cons; right | done].
Qed.

(** When the warning can always be formatted the loop ends normally, with
    the contributions of the items in order, cut at the bound. *)
Lemma comments_loop_spec (items : list element) (st : locals) :
  (length (comments st) ≤ 20)%nat →
  handler_safe (bool_decide (is_Some (post_author_var st))) items = true →
  (comments_loop items st).2 = None
  ∧ comments (comments_loop items st).1 = take 20 (comments st ++ omap comment_of items).
Proof.
  revert st. induction items as [|item rest IH]; intros st Hst.
  - simpl. rewrite app_nil_r, take_ge; [done | lia].
  - rewrite comments_loop_cons. unfold MAX_COMMENTS.
    intros Hsafe.
    destruct (decide (20 ≤ Z.of_nat (length (comments st)))) as [Hfull|Hfull];
      [rewrite (bool_decide_eq_true_2 _ Hfull) | rewrite (bool_decide_eq_false_2 _ Hfull)].
    { assert (length (comments st) = 20%nat) as <- by lia. by rewrite take_app_length. }
    simpl in Hsafe. simpl omap. unfold comment_of at 1.
    rewrite <- comment_try_body_outcome with (bound := post_author_var st).
    destruct (comment_try_body _ _ _) as [bound [e|c]] eqn:Hbody; simpl.
    + pose proof (comment_try_body_bound (classify item) item (post_author_var st)) as Hb.
      rewrite Hbody in Hb. simpl in Hb. unfold has_actor_title in Hsafe.
      destruct (find_element sel_actor_title item) as [e'|a]; subst bound.
      * apply andb_prop in Hsafe as [Hbound Hsafe].
        apply bool_decide_eq_true in Hbound as [a Ha]. rewrite Ha.
        apply_IH IH; simpl; [done | by rewrite Ha in Hsafe].
      * apply_IH IH; simpl; [done | done].
    + pose proof (comment_try_body_ok (classify item) item (post_author_var st) c) as Hok.
      rewrite Hbody in Hok. rewrite (Hok eq_refl) in Hsafe.
      pose proof (comment_try_body_bound (classify item) item (post_author_var st)) as Hb.
      rewrite Hbody in Hb. simpl in Hb. unfold has_actor_title in Hok.
      destruct (find_element sel_actor_title item) as [e'|a]; [by specialize (Hok eq_refl)|].
      subst bound.
      destruct (IH (Locals (comments st ++ [c]) (Some (text a)) (log st))) as [Hnone Hcs];
        simpl; [rewrite length_app; simpl; lia | done |].
      split; [done|]. rewrite Hcs. simpl. by rewrite <- app_assoc.
Qed.

Lemma scrape_reactions_spec (doc container : element) :
  driver_find_element sel_container doc = inr container →
  _scrape_reactions doc = take 20 (omap reaction_of (find_elements sel_feed_item container)).
Proof.
  intros Hc. unfold _scrape_reactions, _scrape_reactions_log. rewrite Hc. simpl.
  rewrite reactions_loop_spec; [done | simpl; lia].
Qed.

(** A page whose items never make the handler of line 77 read an
    unassigned [post_author] yields the contributions of its items, in
    order, cut at the bound. *)
Lemma scrape_comments_spec (doc container : element) :
  driver_find_element sel_container doc = inr container →
  handler_safe false (find_elements sel_feed_item container) = true →
  _scrape_comments doc = take 20 (omap comment_of (find_elements sel_feed_item container)).
Proof.
  intros Hc Hsafe. unfold _scrape_comments, _scrape_comments_log. rewrite Hc.
  destruct (comments_loop_spec (find_elements sel_feed_item container) (Locals [] None []))
    as [Hnone Hcs]; [simpl; lia | done |].
  destruct (comments_loop _ _) as [st [e|]]; [done|]. simpl in *. by rewrite Hcs.
Qed.

Lemma omap_length_all {A B} (f : A → option B) (l : list A) :
  Forall (λ x, is_Some (f x)) l → length (omap f l) = length l.
Proof.
  induction 1 as [|x l [y Hy] _ IH]; simpl; [done|]. rewrite Hy. simpl. f_equal. exact IH.
Qed.

Lemma omap_drop_None {A B} (f : A → option B) (l1 l2 : list A) (x : A) :
  f x = None → omap f (l1 ++ x :: l2) = omap f (l1 ++ l2).
Proof. intros Hx. rewrite !omap_app. simpl. by rewrite Hx. Qed.

(** The records of a reply carry the original comment, those of a direct
    comment do not. *)
Lemma comment_data_reply (b : bool) (item : element) (pa pc : string) (c : comment) :
  comment_data b item pa pc = inr c →
  is_reply c = b ∧ (if b then ∃ s, original_comment c = Some s else original_comment c = None).
Proof.
  unfold comment_data. destruct b.
  - destruct (find_element sel_reply_entity item) as [|re]; [done|]. simpl.
    destruct (find_element sel_main_content re) as [|m]; [done|].
    destruct (find_element sel_comment_time re) as [|t]; [done|]. simpl.
    destruct (find_element sel_nonreply_entity item) as [|oe]; [done|]. simpl.
    destruct (find_element sel_main_content oe) as [|o]; [done|]. simpl.
    intros [= <-]. simpl. eauto.
  - destruct (find_element sel_comment_entity item) as [|ce]; [done|]. simpl.
    destruct (find_element sel_main_content ce) as [|m]; [done|].
    destruct (find_element sel_comment_time ce) as [|t]; [done|]. simpl.
    intros [= <-]. done.
Qed.

Lemma comment_of_reply (item : element) (c : comment) :
  comment_of item = Some c →
  is_reply c = classify item
  ∧ (if classify item then ∃ s, original_comment c = Some s else original_comment c = None).
Proof.
  unfold comment_of, comment_try_body.
  destruct (find_element sel_actor_title item) as [|a]; [done|]. simpl.
  destruct (comment_data _ _ _ _) as [|c'] eqn:Hdata; [done|].
  intros [= <-]. by eapply comment_data_reply.
Qed.

(** ** The claims on the extractors *)

(** C2. Every record [r] that [_scrape_comments] returns has
    [original_comment] present (a string) when [is_reply] is true and
    absent ([None]) when [is_reply] is false. *)
Theorem scrape_comments_reply_invariant (doc : element) (r : comment) :
  r ∈ _scrape_comments doc →
  (is_reply r = true → ∃ s, original_comment r = Some s)
  ∧ (is_reply r = false → original_comment r = None).
Proof.
  unfold _scrape_comments, _scrape_comments_log.
  destruct (driver_find_element sel_container doc) as [e|container]; simpl.
  { by intros ?%elem_of_nil. }
  intros Hr.
  assert (r ∈ comments
            (comments_loop (find_elements sel_feed_item container) (Locals [] None [])).1)
    as Hin by (by destruct (comments_loop _ _) as [st [e|]]).
  apply comments_loop_origin in Hin as [Hin | (item & _ & Hof)].
  { by apply elem_of_nil in Hin. }
  apply comment_of_reply in Hof as [Hr1 Hr2]. rewrite Hr1.
  by destruct (classify item).
Qed.

Lemma scrape_comments_reply_invariant_witness :
  let r := Comment "Bob" "Post two" true (Some "First!") "Agreed" "3h" in
  r ∈ _scrape_comments (Fixtures.feed_page [Fixtures.item1; Fixtures.item2])
  ∧ (is_reply r = true → ∃ s, original_comment r = Some s)
  ∧ (is_reply r = false → original_comment r = None).
Proof.
  intros r.
  assert (r ∈ _scrape_comments (Fixtures.feed_page [Fixtures.item1; Fixtures.item2])) as Hr.
  { vm_compute. apply list_elem_of_further, list_elem_of_here. }
  split; [exact Hr|].
  exact (scrape_comments_reply_invariant _ r Hr).
Defined.

(** C4. Whatever the page renders, [_scrape_comments] returns at most 20
    records ([MAX_COMMENTS]) and [_scrape_reactions] at most 20
    ([MAX_REACTIONS]). *)
Theorem scrape_lengths_bounded (doc : element) :
  Z.of_nat (length (_scrape_comments doc)) ≤ MAX_COMMENTS
  ∧ Z.of_nat (length (_scrape_reactions doc)) ≤ MAX_REACTIONS
  ∧ MAX_COMMENTS = 20 ∧ MAX_REACTIONS = 20.
Proof.
  unfold MAX_COMMENTS, MAX_REACTIONS. split_and!; try done.
  - unfold _scrape_comments, _scrape_comments_log.
    destruct (driver_find_element sel_container doc) as [e|container]; simpl; [lia|].
    pose proof (comments_loop_bounded (find_elements sel_feed_item container)
                  (Locals [] None []) ltac:(simpl; lia)) as Hb.
    destruct (comments_loop _ _) as [st [e|]]; simpl in *; lia.
  - unfold _scrape_reactions, _scrape_reactions_log.
    destruct (driver_find_element sel_container doc) as [e|container]; simpl; [lia|].
    rewrite reactions_loop_spec, length_take; [lia | simpl; lia].
Qed.

(** With 25 well-formed items rendered, each extractor stops at 20. *)
Example scrape_lengths_reach_bound :
  length (_scrape_comments (Fixtures.feed_page (replicate 25 Fixtures.item1))) = 20%nat
  ∧ length (_scrape_reactions
              (Fixtures.feed_page
                 (replicate 25 (Fixtures.reaction_item "Ada" "Post" "likes this" "1h")))) = 20%nat.
Proof. by vm_compute. Qed.

(** C6. Classification is a total function to [bool]: the item is a reply
    exactly when the header text element is found and its text contains
    the substring replied to; when the lookup of the header text element
    fails, whatever the exception, the item is direct. *)
Theorem classify_reply_iff (item : element) :
  (classify item = true ↔
   ∃ h a b, find_element sel_header_text item = inr h
            ∧ text h = a +:+ "replied to" +:+ b)
  ∧ (∀ e, find_element sel_header_text item = inl e → classify item = false)
  ∧ (∀ e, classify_body item = inl e → classify item = false).
Proof.
  unfold classify, classify_body. split_and!.
  - destruct (find_element sel_header_text item) as [e|h]; simpl.
    + split; [done | by intros (h & a & b & ? & _)].
    + rewrite StrFacts.contains_iff. split.
      * intros (a & b & Hab). by exists h, a, b.
      * intros (h' & a & b & [= <-] & Hab). by exists a, b.
  - by intros e ->.
  - by intros e ->.
Qed.

Lemma classify_reply_iff_witness :
  classify Fixtures.item2 = true
  ∧ classify Fixtures.item1 = false
  ∧ classify (Fixtures.untitled_item "Post" "Nice" "1h") = false.
Proof.
  split_and!.
  - apply (classify_reply_iff Fixtures.item2).
    exists (Fixtures.leaf "span" "update-components-header__text-view"
              "replied to a comment on this"),
      EmptyString, " a comment on this".
    by vm_compute.
  - reflexivity.
  - by apply (proj1 (proj2 (classify_reply_iff (Fixtures.untitled_item "Post" "Nice" "1h")))
                (NoSuchElementException sel_header_text)).
Defined.

(** An item whose extraction fails is skipped and the others still yield
    their records, as long as the warning of line 77 can be formatted. *)
Lemma scrape_comments_isolation (doc container : element) (l1 l2 : list element)
    (bad : element) :
  driver_find_element sel_container doc = inr container →
  find_elements sel_feed_item container = l1 ++ bad :: l2 →
  comment_of bad = None →
  handler_safe false (l1 ++ bad :: l2) = true →
  _scrape_comments doc = take 20 (omap comment_of (l1 ++ l2)).
Proof.
  intros Hc Hitems Hbad Hsafe.
  rewrite (scrape_comments_spec doc container Hc); rewrite Hitems; [|done].
  by rewrite omap_drop_None.
Qed.

(** Five items, the third malformed: the four others are returned and a
    warning names the author of the skipped item. *)
Example scrape_comments_third_item_malformed :
  _scrape_comments_log (Fixtures.feed_page Fixtures.batch_third_malformed) =
  ([Comment "Ada" "Post one" false None "Nice" "1h";
    Comment "Bob" "Post two" true (Some "First!") "Agreed" "3h";
    Comment "Dee" "Post four" false None "Wow" "1d";
    Comment "Eli" "Post five" false None "Great" "2d"],
   [Warning "Could not parse a comment/reply item for Cyd"
      (Some (NoSuchElementException sel_comment_entity))]).
Proof. by vm_compute. Qed.

(** C1, at the input where the code departs from it. Five items are
    rendered and only the first is malformed: its actor title is missing.
    The four other items are well-formed, yet [_scrape_comments] returns
    no record at all: formatting the warning reads [post_author] before
    any assignment, the exception leaves the loop and the outer handler
    logs an error. *)
Theorem scrape_comments_first_item_malformed :
  length Fixtures.batch_first_malformed = 5%nat
  ∧ omap comment_of Fixtures.batch_first_malformed =
    [Comment "Bob" "Post two" true (Some "First!") "Agreed" "3h";
     Comment "Cyd" "Post three" false None "Thanks" "5h";
     Comment "Dee" "Post four" false None "Wow" "1d";
     Comment "Eli" "Post five" false None "Great" "2d"]
  ∧ _scrape_comments_log (Fixtures.feed_page Fixtures.batch_first_malformed) =
    ([], [Error "Error scraping comments list: " (UnboundLocalError "post_author")]).
Proof. by vm_compute. Qed.

(** Records of [_scrape_reactions] are complete: each one is made of the
    texts of the four elements found in one rendered item. *)
Lemma scrape_reactions_complete (doc container : element) (r : reaction) :
  driver_find_element sel_container doc = inr container →
  r ∈ _scrape_reactions doc →
  ∃ item, item ∈ find_elements sel_feed_item container ∧ reaction_of item = Some r.
Proof.
  intros Hc. rewrite (scrape_reactions_spec doc container Hc).
  intros Hr%elem_of_take. destruct Hr as (i & Hr & _).
  apply list_elem_of_lookup_2 in Hr.
  apply list_elem_of_omap in Hr as (item & Hitem & Hof). by exists item.
Qed.

(** C7. When one of the four lookups (author, content, reaction label,
    timestamp) fails on an item, [_scrape_reactions] drops the item whole
    and goes on with the next ones: every record returned is made of the
    four texts found in one of the other items, the result is the one of
    the batch without the dropped item, and when the others are
    well-formed and fit the bound of 20 its length is their number (one
    less than the number of items). *)
Theorem scrape_reactions_atomic (doc container : element) (l1 l2 : list element)
    (bad : element) (sel : selector) (e : exn) :
  driver_find_element sel_container doc = inr container →
  find_elements sel_feed_item container = l1 ++ bad :: l2 →
  sel ∈ [sel_actor_title; sel_text_block; sel_header_text; sel_sub_description] →
  find_element sel bad = inl e →
  (∀ r, r ∈ _scrape_reactions doc →
        ∃ item a c h t,
          item ∈ l1 ++ l2
          ∧ find_element sel_actor_title item = inr a
          ∧ find_element sel_text_block item = inr c
          ∧ find_element sel_header_text item = inr h
          ∧ find_element sel_sub_description item = inr t
          ∧ r = Reaction (text a) (text c) (text h) (text t))
  ∧ _scrape_reactions doc = reactions_loop (l1 ++ l2) []
  ∧ _scrape_reactions doc = take 20 (omap reaction_of (l1 ++ l2))
  ∧ (Forall (λ item, is_Some (reaction_of item)) (l1 ++ l2) →
     (length (l1 ++ l2) ≤ 20)%nat →
     length (_scrape_reactions doc) = length (l1 ++ l2)
     ∧ S (length (_scrape_reactions doc)) = length (l1 ++ bad :: l2)).
Proof.
  intros Hc Hitems Hsel Hfail.
  assert (reaction_of bad = None) as Hbad by (apply reaction_of_None; eauto).
  assert (_scrape_reactions doc = take 20 (omap reaction_of (l1 ++ l2))) as Hspec.
  { rewrite (scrape_reactions_spec doc container Hc), Hitems. by rewrite omap_drop_None. }
  split_and!.
  - intros r Hr. rewrite Hspec in Hr.
    apply elem_of_take in Hr as (i & Hr & _). apply list_elem_of_lookup_2 in Hr.
    apply list_elem_of_omap in Hr as (item & Hitem & Hof).
    apply reaction_of_Some in Hof as (a & c & h & t & ?). by exists item, a, c, h, t.
  - rewrite Hspec, reactions_loop_spec; [done | simpl; lia].
  - done.
  - intros Hall Hlen. rewrite Hspec, length_take, omap_length_all by done.
    rewrite !length_app, ?length_cons in *. lia.
Qed.

Lemma scrape_reactions_atomic_witness :
  let good1 := Fixtures.reaction_item "Ada" "Post one" "likes this" "1h" in
  let bad := Fixtures.unlabelled_reaction_item "Bob" "Post two" "2h" in
  let good2 := Fixtures.reaction_item "Cyd" "Post three" "celebrates this" "3h" in
  _scrape_reactions (Fixtures.feed_page [good1; bad; good2]) =
  [Reaction "Ada" "Post one" "likes this" "1h";
   Reaction "Cyd" "Post three" "celebrates this" "3h"]
  ∧ length (_scrape_reactions (Fixtures.feed_page [good1; bad; good2])) = 2%nat.
Proof.
  intros good1 bad good2.
  pose proof (scrape_reactions_atomic
                (Fixtures.feed_page [good1; bad; good2])
                (Fixtures.box "div" ["scaffold-finite-scroll__content"] [good1; bad; good2])
                [good1] [good2] bad sel_header_text
                (NoSuchElementException sel_header_text)
                eq_refl eq_refl
                (list_elem_of_further _ _ _
                   (list_elem_of_further _ _ _ (list_elem_of_here _ _)))
                eq_refl) as (_ & _ & Hspec & Hlen).
  split; [exact Hspec|].
  apply Hlen; [|simpl; lia].
  repeat constructor; by eexists.
Defined.

End ActivityFacts.

(** ** The scroll loader *)

Module ScrollFacts.
Import Dom Activity Items.

Lemma scroll_step_page (d : driver) : page (sleep 2 (scroll_to_bottom d)) = page d.
Proof. done. Qed.

Lemma scroll_step_scrolls (d : driver) :
  scrolls (sleep 2 (scroll_to_bottom d)) = S (scrolls d).
Proof. done. Qed.

Lemma scroll_step_clock (d : driver) :
  clock (sleep 2 (scroll_to_bottom d)) = clock d + 2.
Proof. done. Qed.

(** One iteration of the loop, by cases. *)
Lemma scroll_loop_S (fuel : nat) (d : driver) (max_items last_height : Z) :
  scroll_loop (S fuel) d max_items last_height =
  if bool_decide (max_items ≤ item_count d (scrolls d)) then Some d
  else if bool_decide (height d (S (scrolls d)) = last_height)
       then Some (sleep 2 (scroll_to_bottom d))
       else scroll_loop fuel (sleep 2 (scroll_to_bottom d)) max_items
              (height d (S (scrolls d))).
Proof. done. Qed.

Lemma scrolling_start (d : driver) (max_items : Z) : scrolling d max_items d.
Proof.
  unfold scrolling. split_and!; try done; lia.
Qed.

Lemma scroll_loop_stopped (fuel : nat) (d0 d d' : driver) (max_items : Z) :
  scrolling d0 max_items d →
  scroll_loop fuel d max_items (height d0 (scrolls d)) = Some d' →
  stopped d0 max_items d'.
Proof.
  revert d. induction fuel as [|fuel IH]; intros d Hinv; [done|].
  destruct Hinv as (Hpage & Hle & Hclock & Hbefore & Hlast).
  assert (∀ k, item_count d k = item_count d0 k) as Hcount
    by (intros k; unfold item_count; by rewrite Hpage).
  assert (∀ k, height d k = height d0 k) as Hheight
    by (intros k; unfold height; by rewrite Hpage).
  rewrite scroll_loop_S, Hcount, !Hheight.
  assert (∀ k, (scrolls d0 ≤ k < S (scrolls d))%nat →
               item_count d0 (scrolls d) < max_items →
               item_count d0 k < max_items
               ∧ ((scrolls d0 < k)%nat → height d0 k ≠ height d0 (k - 1))) as Hnext.
  { intros k Hk Hlow. destruct (decide (k = scrolls d)) as [->|Hne].
    - split; [done | intros; apply Hlast; lia].
    - apply Hbefore. lia. }
  case_bool_decide as Hmet.
  { intros [= <-]. unfold stopped. split_and!; try done. by left. }
  case_bool_decide as Hsame.
  - intros [= <-]. unfold stopped.
    rewrite scroll_step_scrolls, scroll_step_page, scroll_step_clock.
    split_and!; try done; try lia.
    + right. split; [lia|]. by replace (S (scrolls d) - 1)%nat with (scrolls d) by lia.
    + intros k Hk. apply Hnext; [done | lia].
  - intros Hloop. apply (IH (sleep 2 (scroll_to_bottom d))); [|done].
    unfold scrolling.
    rewrite scroll_step_scrolls, scroll_step_page, scroll_step_clock.
    split_and!; try done; try lia.
    + intros k Hk. apply Hnext; [done | lia].
    + intros _. by replace (S (scrolls d) - 1)%nat with (scrolls d) by lia.
Qed.

(** Once two consecutive heights agree the loop returns, count met or
    not. *)
Lemma scroll_loop_terminates (n : nat) (d : driver) (max_items : Z) :
  height d (scrolls d + n + 1) = height d (scrolls d + n) →
  ∃ d', scroll_loop (n + 1) d max_items (height d (scrolls d)) = Some d'
        ∧ (scrolls d' ≤ scrolls d + n + 1)%nat.
Proof.
  revert d. induction n as [|n IH]; intros d Hsettled.
  - simpl Nat.add. rewrite scroll_loop_S.
    case_bool_decide; [exists d; split; [done | lia]|].
    replace (scrolls d + 0 + 1)%nat with (S (scrolls d)) in Hsettled by lia.
    replace (scrolls d + 0)%nat with (scrolls d) in Hsettled by lia.
    rewrite bool_decide_eq_true_2 by done.
    eexists; split; [done|]. rewrite scroll_step_scrolls. lia.
  - replace (S n + 1)%nat with (S (n + 1)) by lia. rewrite scroll_loop_S.
    case_bool_decide; [exists d; split; [done | lia]|].
    case_bool_decide; [eexists; split; [done | rewrite scroll_step_scrolls; lia]|].
    destruct (IH (sleep 2 (scroll_to_bottom d))) as (d' & Hd' & Hle).
    { unfold height in *. rewrite scroll_step_page, scroll_step_scrolls.
      replace (S (scrolls d) + n + 1)%nat with (scrolls d + S n + 1)%nat by lia.
      by replace (S (scrolls d) + n)%nat with (scrolls d + S n)%nat by lia. }
    exists d'. unfold height in *.
    rewrite scroll_step_page, scroll_step_scrolls in Hd'.
    split; [done|]. rewrite scroll_step_scrolls in Hle. lia.
Qed.

(** More fuel does not change what the loop returns. *)
Lemma scroll_loop_fuel (fuel extra : nat) (d d' : driver) (max_items last_height : Z) :
  scroll_loop fuel d max_items last_height = Some d' →
  scroll_loop (fuel + extra) d max_items last_height = Some d'.
Proof.
  revert d last_height. induction fuel as [|fuel IH]; intros d last_height; [done|].
  replace (S fuel + extra)%nat with (S (fuel + extra)) by lia.
  rewrite !scroll_loop_S. repeat case_bool_decide; try done. apply IH.
Qed.

(** C5. On a page whose measured height no longer changes after [N]
    scroll actions, [_scroll_for_items] returns within [N + 1] measurement
    cycles (scroll, pause, measure), whether or not the item count ever
    reaches the target; and whenever it returns it has stopped for one of
    two reasons only: the item count met the target, or two consecutive
    height measurements were equal. *)
Theorem scroll_for_items_terminates (d : driver) (max_items : Z) (N : nat) :
  (∀ k, (N ≤ k)%nat → height d (scrolls d + k) = height d (scrolls d + N)) →
  (∃ d', (∀ fuel, (N + 1 ≤ fuel)%nat → _scroll_for_items fuel d max_items = Some d')
         ∧ (scrolls d' - scrolls d ≤ N + 1)%nat)
  ∧ (∀ fuel d', _scroll_for_items fuel d max_items = Some d' → stopped d max_items d').
Proof.
  intros Hsettled. split.
  - destruct (scroll_loop_terminates N d max_items) as (d' & Hd' & Hle).
    { replace (scrolls d + N + 1)%nat with (scrolls d + (N + 1))%nat by lia.
      apply Hsettled. lia. }
    exists d'. split; [|lia].
    intros fuel Hfuel. unfold _scroll_for_items, current.
    replace fuel with ((N + 1) + (fuel - (N + 1)))%nat by lia.
    by apply scroll_loop_fuel.
  - intros fuel d' Hd'. eapply scroll_loop_stopped; [apply scrolling_start | exact Hd'].
Qed.

(** C8. When the page already shows at least [max_items] feed items on
    entry, [_scroll_for_items] returns the session as it received it: no
    scroll action, no settle pause, scroll position and page (hence its
    height) unchanged. *)
Theorem scroll_for_items_noop (fuel : nat) (d : driver) (max_items : Z) :
  max_items ≤ Z.of_nat (length (driver_find_elements sel_feed_item (document (current d)))) →
  _scroll_for_items (S fuel) d max_items = Some d.
Proof.
  intros Hmet. unfold _scroll_for_items. simpl.
  by rewrite bool_decide_eq_true_2.
Qed.

Lemma scroll_for_items_terminates_witness :
  let d := Fixtures.fresh_driver (Fixtures.lazy_page 2 Fixtures.item1) in
  (∃ d', (∀ fuel, (2 + 1 ≤ fuel)%nat → _scroll_for_items fuel d 20 = Some d')
         ∧ (scrolls d' - scrolls d ≤ 2 + 1)%nat)
  ∧ (∀ fuel d', _scroll_for_items fuel d 20 = Some d' → stopped d 20 d').
Proof.
  intros d. apply (scroll_for_items_terminates d 20 2).
  intros k Hk. unfold height, d, Fixtures.fresh_driver, Fixtures.lazy_page. simpl.
  by rewrite Nat.min_r by lia.
Defined.

(** On that page the loop stops after its third cycle, on a repeated
    height, with nine items rendered out of the twenty asked for. *)
Example scroll_for_items_lazy_page :
  let d := Fixtures.fresh_driver (Fixtures.lazy_page 2 Fixtures.item1) in
  _scroll_for_items 2 d 20 = None
  ∧ (scrolls <$> _scroll_for_items 3 d 20) = Some 3%nat
  ∧ (clock <$> _scroll_for_items 3 d 20) = Some 6
  ∧ (scrollY <$> _scroll_for_items 3 d 20) = Some 3000
  ∧ item_count d 3 = 9.
Proof. by vm_compute. Qed.

Lemma scroll_for_items_noop_witness :
  let d := Fixtures.fresh_driver (Fixtures.lazy_page 2 Fixtures.item1) in
  _scroll_for_items 1 d 3 = Some d.
Proof.
  intros d. apply (scroll_for_items_noop 0 d 3). by vm_compute.
Defined.

End ScrollFacts.

(** ** The orchestrator *)

Module OrchestratorFacts.
Import Dom Activity Items.

Section Phases.

Variable web : string → option (nat → snapshot).
Variable error_response : Type.
Variable handle_tool_error : exn → string → error_response.





End Phases.

(** Without a session the outermost handler answers with the error
    response, and neither phase runs. *)
Example get_person_activity_no_session :
  get_person_activity Fixtures.ada_web (inl DriverUnavailable)
    string (λ _ context, context) 1 "ada" =
  Some (ToolError "get_person_activity", []).
Proof. reflexivity. Qed.


End OrchestratorFacts.

(** ** The saved-posts tools *)

Module PostsFacts.
Import Posts.

Section EmptyKeywords.

(** [str.lower] and [str.upper], whatever they compute. *)
Variable lower upper : string → string.

(** With no keyword, the AND branch keeps every post. *)
Lemma search_loop_and_nil (mode : string) (posts acc : list (gmap string value)) :
  upper mode = "AND" →
  Forall (λ post, ∃ s, default (VStr EmptyString) (post !! "Text") = VStr s) posts →
  search_loop lower upper [] mode posts acc = inr (acc ++ posts).
Proof.
  intros Hmode Htext. revert acc.
  induction Htext as [|post posts [s Hs] _ IH]; intros acc; simpl.
  - by rewrite app_nil_r.
  - unfold lowered_text. rewrite Hs. simpl.
    rewrite bool_decide_eq_true_2 by done.
    rewrite IH. by rewrite <- app_assoc.
Qed.

(** With no keyword, the OR branch keeps none. *)
Lemma search_loop_or_nil (mode : string) (posts acc : list (gmap string value)) :
  upper mode ≠ "AND" →
  Forall (λ post, ∃ s, default (VStr EmptyString) (post !! "Text") = VStr s) posts →
  search_loop lower upper [] mode posts acc = inr acc.
Proof.
  intros Hmode Htext. revert acc.
  induction Htext as [|post posts [s Hs] _ IH]; intros acc; simpl; [done|].
  unfold lowered_text. rewrite Hs. simpl.
  by rewrite bool_decide_eq_false_2 by done.
Qed.

(** C9, as amended. On a saved post file whose [Text] fields are strings,
    [search_posts] with an empty list of keywords returns every saved post
    in AND mode (the first five on the page, [total_results] counting them
    all) and no post in OR mode, whatever the case mappings are. *)
Theorem search_posts_empty_keywords (posts : list (gmap string value))
    (mode_and mode_or : string) :
  Forall (λ post, ∃ s, default (VStr EmptyString) (post !! "Text") = VStr s) posts →
  upper mode_and = "AND" →
  upper mode_or ≠ "AND" →
  search_posts lower upper (Some posts) [] mode_and =
    inr (SearchResults [] mode_and (length posts) (take 5 posts)
           (bool_decide (5 < length posts)%nat))
  ∧ search_posts lower upper (Some posts) [] mode_or
    = inr (SearchResults [] mode_or 0 [] false).
Proof.
  intros Htext Hand Hor. unfold search_posts. split.
  - by rewrite search_loop_and_nil.
  - by rewrite search_loop_or_nil.
Qed.

End EmptyKeywords.

Lemma search_posts_empty_keywords_witness :
  let posts := [Fixtures.post_march; Fixtures.post_june; Fixtures.post_undated] in
  search_posts Str.ascii_lower Str.ascii_upper (Some posts) [] "AND"
  = inr (SearchResults [] "AND" 3 posts false)
  ∧ search_posts Str.ascii_lower Str.ascii_upper (Some posts) [] "OR"
    = inr (SearchResults [] "OR" 0 [] false).
Proof.
  intros posts.
  apply (search_posts_empty_keywords Str.ascii_lower Str.ascii_upper posts "AND" "OR").
  - repeat constructor; eexists; by vm_compute.
  - reflexivity.
  - discriminate.
Defined.

(** C9 as it was stated, for every saved post file, fails on a file in
    which a post was saved with a null Text: with an empty list of keywords
    the call raises in AND mode and in OR mode alike, before any keyword is
    looked at, and returns neither every post nor none. *)
Lemma search_posts_empty_keywords_null_text :
  let posts := [Fixtures.post_march; {[ "Text" := VNone ]}] in
  search_posts Str.ascii_lower Str.ascii_upper (Some posts) [] "AND"
  ≠ inr (SearchResults [] "AND" (length posts) (take 5 posts)
           (bool_decide (5 < length posts)%nat))
  ∧ search_posts Str.ascii_lower Str.ascii_upper (Some posts) [] "AND"
    = inl (AttributeError "lower")
  ∧ search_posts Str.ascii_lower Str.ascii_upper (Some posts) [] "OR"
    = inl (AttributeError "lower").
Proof. by vm_compute. Qed.

(** The comprehension of line 187 raises as soon as one post has no date
    that parses. *)
Lemma date_filter_raises (start_dt end_dt : datetime) (posts : list (gmap string value))
    (post : gmap string value) (e : exn) :
  post ∈ posts →
  posted_datetime post = inl e →
  ∃ e', date_filter start_dt end_dt posts = inl e'.
Proof.
  intros Hin He. induction Hin as [post posts | post other posts _ IH]; simpl.
  - rewrite He. by exists e.
  - destruct (posted_datetime other) as [e'|dt]; [by exists e'|]. simpl.
    destruct (IH He) as [e' ->]. by exists e'.
Qed.

(** C10. [get_posts_by_date] is partial in the stored data: with two
    valid argument dates, a saved post whose Posted Date is missing or is
    not a valid date (such as the empty string saved for a fetched post
    without a posted field) makes the call raise instead of returning a
    dictionary; only the parsing of the two arguments is guarded. *)
Theorem get_posts_by_date_partial (posts : list (gmap string value))
    (post : gmap string value) (start_date end_date : string)
    (start_dt end_dt : datetime) (e : exn) :
  strptime_ymd start_date = inr start_dt →
  strptime_ymd end_date = inr end_dt →
  post ∈ posts →
  posted_datetime post = inl e →
  ∃ e', get_posts_by_date (Some posts) start_date end_date = inl e'.
Proof.
  intros Hstart Hend Hin He. unfold get_posts_by_date.
  rewrite Hstart, Hend. simpl.
  destruct (date_filter_raises start_dt end_dt posts post e Hin He) as [e' ->].
  by exists e'.
Qed.

Lemma get_posts_by_date_partial_witness :
  posted_date ∅ = inr (VStr EmptyString)
  ∧ ∃ e', get_posts_by_date
            (Some [Fixtures.post_march; Fixtures.post_undated; Fixtures.post_june])
            "2024-01-01" "2024-12-31" = inl e'.
Proof.
  split; [reflexivity|].
  apply (get_posts_by_date_partial
           [Fixtures.post_march; Fixtures.post_undated; Fixtures.post_june]
           Fixtures.post_undated "2024-01-01" "2024-12-31"
           (Datetime 2024 1 1) (Datetime 2024 12 31) (ValueError EmptyString)).
  - reflexivity.
  - reflexivity.
  - apply list_elem_of_further, list_elem_of_here.
  - reflexivity.
Defined.

(** The exception is the [ValueError] of the per-post parse, and without
    the undated post the same call returns its dictionary. *)
Example get_posts_by_date_undated :
  get_posts_by_date
    (Some [Fixtures.post_march; Fixtures.post_undated; Fixtures.post_june])
    "2024-01-01" "2024-12-31" = inl (ValueError EmptyString)
  ∧ get_posts_by_date (Some [Fixtures.post_march; Fixtures.post_june])
      "2024-01-01" "2024-04-30" =
    inr (DateResults "2024-01-01" "2024-04-30" 1 [Fixtures.post_march])
  ∧ get_posts_by_date (Some [Fixtures.post_march; Fixtures.post_undated])
      "2024-01-01" "April" =
    inr (DateMessage "Invalid date format. Use 'YYYY-MM-DD'.").
Proof. by vm_compute. Qed.

End PostsFacts.

(** ** Paging through the saved posts *)

Module PagingFacts.
Import Posts PostsTools Aux.

Lemma take_add {A} (l : list A) (n m : nat) :
  take (n + m) l = take n l ++ take m (drop n l).
Proof.
  revert l. induction n as [|n IH]; intros [|x l]; simpl; try done.
  - by rewrite take_nil.
  - by rewrite IH.
Qed.

Lemma take_min_length {A} (l : list A) (k : nat) :
  take (k `min` length l) l = take k l.
Proof.
  destruct (decide (k ≤ length l)%nat).
  - by rewrite Nat.min_l by lia.
  - rewrite Nat.min_r by lia. by rewrite !take_ge by lia.
Qed.

(** A slice with non-negative bounds is a [take] of a [drop]. *)
Lemma slice_nonneg {A} (l : list A) (i j : Z) :
  0 ≤ i → i ≤ j →
  slice l i j = take (Z.to_nat (j - i)) (drop (Z.to_nat i) l).
Proof.
  intros Hi Hj. unfold slice, adjust_index.
  rewrite !bool_decide_eq_false_2 by lia.
  destruct (decide (i ≤ Z.of_nat (length l))) as [Hin|Hout].
  - rewrite (Z.min_l i) by lia.
    rewrite <- (take_min_length (drop (Z.to_nat i) l) (Z.to_nat (j - i))).
    f_equal. rewrite length_drop. lia.
  - rewrite !drop_ge by lia. by rewrite !take_nil.
Qed.

Lemma slice_length_le {A} (l : list A) (i len : Z) :
  0 ≤ len → (length (slice l i (i + len)) ≤ Z.to_nat len)%nat.
Proof.
  intros Hlen. unfold slice, adjust_index. rewrite length_take.
  repeat case_bool_decide; lia.
Qed.

Lemma page_posts_saved (posts : list (gmap string value)) (start limit : Z) :
  page_posts (get_saved_posts (Saved posts) start limit)
  = slice posts start (start + Z.min limit 5).
Proof. done. Qed.

(** X1. For a limit that is not negative, the page [get_saved_posts]
    returns never holds more than [min(limit, 5)] posts, whatever the start
    index, negative ones included. *)
Theorem get_saved_posts_page_bounded (posts : list (gmap string value)) (start limit : Z) :
  0 ≤ limit →
  Z.of_nat (length (page_posts (get_saved_posts (Saved posts) start limit)))
  ≤ Z.min limit 5.
Proof.
  intros Hlimit. simpl.
  pose proof (slice_length_le posts start (Z.min limit 5) ltac:(lia)). lia.
Qed.

Lemma get_saved_posts_page_bounded_witness :
  Z.of_nat (length (page_posts
                      (get_saved_posts (Saved MoreFixtures.seven_posts) (-4) 9)))
  ≤ Z.min 9 5.
Proof. apply get_saved_posts_page_bounded. lia. Defined.

(** X2. With a start index and a limit that are not negative the page is
    the [min(limit, 5)] posts that follow the first [start] ones, in file
    order; when [has_more] is set the page is full and posts remain after
    it, and when it is not the page runs to the end of the file. *)
Theorem get_saved_posts_page (posts : list (gmap string value)) (start limit : Z) :
  0 ≤ start → 0 ≤ limit →
  ∃ page more,
    get_saved_posts (Saved posts) start limit = SavedPage page (length posts) more
    ∧ page = take (Z.to_nat (Z.min limit 5)) (drop (Z.to_nat start) posts)
    ∧ (more = true →
       Z.of_nat (length page) = Z.min limit 5
       ∧ drop (Z.to_nat start + length page) posts ≠ [])
    ∧ (more = false → page = drop (Z.to_nat start) posts).
Proof.
  intros Hstart Hlimit. eexists _, _. split; [reflexivity|].
  assert (slice posts start (start + Z.min limit 5) =
          take (Z.to_nat (Z.min limit 5)) (drop (Z.to_nat start) posts)) as Hpage.
  { rewrite slice_nonneg by lia. do 2 f_equal. lia. }
  rewrite Hpage. split_and!; [done | |].
  - intros Hmore%bool_decide_eq_true.
    assert (length (take (Z.to_nat (Z.min limit 5)) (drop (Z.to_nat start) posts))
            = Z.to_nat (Z.min limit 5)) as Hlen.
    { rewrite length_take, length_drop. lia. }
    split; [lia|]. rewrite Hlen.
    intros Hnil%drop_nil_inv. lia.
  - intros Hmore%bool_decide_eq_false.
    apply take_ge. rewrite length_drop. lia.
Qed.

Lemma get_saved_posts_page_witness :
  ∃ page more,
    get_saved_posts (Saved MoreFixtures.seven_posts) 5 5 = SavedPage page 7 more
    ∧ page = take (Z.to_nat (Z.min 5 5)) (drop (Z.to_nat 5) MoreFixtures.seven_posts)
    ∧ (more = true →
       Z.of_nat (length page) = Z.min 5 5
       ∧ drop (Z.to_nat 5 + length page) MoreFixtures.seven_posts ≠ [])
    ∧ (more = false → page = drop (Z.to_nat 5) MoreFixtures.seven_posts).
Proof. apply (get_saved_posts_page MoreFixtures.seven_posts 5 5); lia. Defined.

(** X3. Asking for the pages at 0, 5, 10, ... with a limit of five or more
    and putting them one after the other gives back the file: [k] pages
    are the first [5 k] posts, hence all of them once [5 k] reaches their
    number. *)
Theorem get_saved_posts_pages_concat (posts : list (gmap string value)) (limit : Z)
    (k : nat) :
  5 ≤ limit →
  mjoin ((λ i, page_posts (get_saved_posts (Saved posts) (5 * Z.of_nat i) limit))
           <$> seq 0 k)
  = take (5 * k) posts
  ∧ ((length posts ≤ 5 * k)%nat →
     mjoin ((λ i, page_posts (get_saved_posts (Saved posts) (5 * Z.of_nat i) limit))
              <$> seq 0 k)
     = posts).
Proof.
  intros Hlimit.
  assert (mjoin ((λ i, page_posts (get_saved_posts (Saved posts) (5 * Z.of_nat i) limit))
                   <$> seq 0 k) = take (5 * k) posts) as Hpages.
  { set (f := λ i, page_posts (get_saved_posts (Saved posts) (5 * Z.of_nat i) limit)).
    induction k as [|k IH]; [done|].
    rewrite seq_S, fmap_app, join_app, IH.
    change (mjoin (f <$> [(0 + k)%nat])) with (f k ++ []).
    rewrite app_nil_r. unfold f. rewrite page_posts_saved, slice_nonneg by lia.
    replace (5 * S k)%nat with (5 * k + 5)%nat by lia. rewrite take_add.
    f_equal. f_equal; [lia | f_equal; lia]. }
  split; [done|]. intros Hall. rewrite Hpages. by apply take_ge.
Qed.

Lemma get_saved_posts_pages_concat_witness :
  mjoin ((λ i, page_posts
                 (get_saved_posts (Saved MoreFixtures.seven_posts) (5 * Z.of_nat i) 5))
           <$> seq 0 2)
  = MoreFixtures.seven_posts.
Proof.
  apply (get_saved_posts_pages_concat MoreFixtures.seven_posts 5 2); [lia | simpl; lia].
Defined.

(** X4. A negative limit is not capped: with start 0 and limit [-k] the
    page is every post but the last [k], however many that is. *)
Theorem get_saved_posts_negative_limit (posts : list (gmap string value)) (k : nat) :
  (0 < k)%nat →
  page_posts (get_saved_posts (Saved posts) 0 (- Z.of_nat k))
  = take (length posts - k) posts.
Proof.
  intros Hk. simpl. unfold slice, adjust_index.
  rewrite Z.min_l by lia.
  rewrite (bool_decide_eq_false_2 (0 < 0)) by lia.
  rewrite (bool_decide_eq_true_2 (0 + - Z.of_nat k < 0)) by lia.
  rewrite Z.min_l by lia. simpl. f_equal. lia.
Qed.

Lemma get_saved_posts_negative_limit_witness :
  page_posts (get_saved_posts (Saved MoreFixtures.seven_posts) 0 (- Z.of_nat 1))
  = take (length MoreFixtures.seven_posts - 1) MoreFixtures.seven_posts
  ∧ length (page_posts (get_saved_posts (Saved MoreFixtures.seven_posts) 0 (-1))) = 6%nat.
Proof.
  split; [apply (get_saved_posts_negative_limit MoreFixtures.seven_posts 1); lia|].
  reflexivity.
Defined.

End PagingFacts.

(** ** Searching the saved posts *)

Module SearchFacts.
Import Posts Aux.

Lemma filter_sublist {A} (f : A → bool) (l : list A) : sublist (List.filter f l) l.
Proof.
  induction l as [|x l IH]; simpl; [constructor|].
  destruct (f x); by constructor.
Qed.

Lemma filter_length_mono {A} (f g : A → bool) (l : list A) :
  (∀ x, f x = true → g x = true) →
  (length (List.filter f l) ≤ length (List.filter g l))%nat.
Proof.
  intros Hfg. induction l as [|x l IH]; simpl; [done|].
  destruct (f x) eqn:Hf.
  - rewrite (Hfg x Hf). simpl. lia.
  - destruct (g x); simpl; lia.
Qed.

Section Search.

(** [str.lower] and [str.upper], whatever they compute. *)
Variable lower upper : string → string.

Lemma lowered_text_string (post : gmap string value) (s : string) :
  default (VStr EmptyString) (post !! "Text") = VStr s →
  lowered_text lower post = inr (lower s).
Proof. unfold lowered_text. by intros ->. Qed.

(** The loop of [search_posts] is a filter that keeps the order of the
    file. *)
Lemma search_loop_filter (keywords : list string) (mode : string)
    (posts acc : list (gmap string value)) :
  texts_are_strings posts →
  search_loop lower upper keywords mode posts acc
  = inr (acc ++ List.filter (matcher lower upper keywords mode) posts).
Proof.
  intros Htext. revert acc.
  induction Htext as [|post posts [s Hs] _ IH]; intros acc; simpl.
  - by rewrite app_nil_r.
  - assert (matcher lower upper keywords mode post =
            if bool_decide (upper mode = "AND")
            then forallb (λ keyword, Str.contains (lower keyword) (lower s)) keywords
            else existsb (λ keyword, Str.contains (lower keyword) (lower s)) keywords)
      as Hpost.
    { unfold matcher, matches_all, matches_any.
      by rewrite (lowered_text_string post s Hs). }
    remember (matcher lower upper keywords mode) as test eqn:Htest.
    rewrite (lowered_text_string post s Hs). simpl. rewrite Hpost.
    case_bool_decide.
    + destruct (forallb _ keywords); rewrite IH; subst test; [by rewrite <- app_assoc | done].
    + destruct (existsb _ keywords); rewrite IH; subst test; [by rewrite <- app_assoc | done].
Qed.

Lemma search_posts_filter (keywords : list string) (mode : string)
    (posts : list (gmap string value)) :
  texts_are_strings posts →
  search_posts lower upper (Some posts) keywords mode
  = inr (SearchResults keywords mode
           (length (List.filter (matcher lower upper keywords mode) posts))
           (take 5 (List.filter (matcher lower upper keywords mode) posts))
           (bool_decide
              (5 < length (List.filter (matcher lower upper keywords mode) posts))%nat)).
Proof.
  intros Htext. unfold search_posts. by rewrite search_loop_filter.
Qed.

(** X5. On a file whose Text fields are strings [search_posts] keeps, in
    file order, the posts that pass the test of the mode (every keyword,
    or some keyword, lower-cased, is a substring of the lower-cased text):
    [total_results] counts them all, the page holds the first five, and
    [has_more] tells whether there are more than five.  This holds
    whatever [str.lower] and [str.upper] compute. *)
Theorem search_posts_results (keywords : list string) (mode : string)
    (posts : list (gmap string value)) :
  texts_are_strings posts →
  ∃ found,
    found = List.filter (matcher lower upper keywords mode) posts
    ∧ search_posts lower upper (Some posts) keywords mode
      = inr (SearchResults keywords mode (length found) (take 5 found)
               (bool_decide (5 < length found)%nat))
    ∧ sublist found posts
    ∧ ∀ post, post ∈ take 5 found → matcher lower upper keywords mode post = true.
Proof.
  intros Htext. eexists. split; [reflexivity|]. split_and!.
  - by apply search_posts_filter.
  - apply filter_sublist.
  - intros post Hin%elem_of_take. destruct Hin as (i & Hin & _).
    apply list_elem_of_lookup_2, list_elem_of_In, filter_In in Hin. by destruct Hin.
Qed.

Lemma forallb_lower (text : string) (keywords : list string) :
  forallb (λ keyword, Str.contains (lower keyword) text) keywords
  = forallb (λ keyword, Str.contains keyword text) (lower <$> keywords).
Proof. induction keywords as [|k ks IH]; simpl; [done | by rewrite IH]. Qed.

Lemma existsb_lower (text : string) (keywords : list string) :
  existsb (λ keyword, Str.contains (lower keyword) text) keywords
  = existsb (λ keyword, Str.contains keyword text) (lower <$> keywords).
Proof. induction keywords as [|k ks IH]; simpl; [done | by rewrite IH]. Qed.

(** The test depends on the keywords and on the mode through their
    lower-cased, respectively upper-cased, forms only. *)
Lemma matcher_case (keywords keywords' : list string) (mode mode' : string)
    (post : gmap string value) :
  lower <$> keywords = lower <$> keywords' →
  upper mode = upper mode' →
  matcher lower upper keywords mode post = matcher lower upper keywords' mode' post.
Proof.
  intros Hkeywords Hmode. unfold matcher, matches_all, matches_any. rewrite Hmode.
  destruct (lowered_text lower post) as [e|text]; [done|].
  by rewrite !forallb_lower, !existsb_lower, Hkeywords.
Qed.

(** X6. The search does not look at the case of the keywords nor of the
    mode: two calls whose keywords agree once [str.lower] is applied and
    whose modes agree once [str.upper] is applied find the same posts, the
    same total and the same [has_more], whatever the two methods
    compute. *)
Theorem search_posts_case_insensitive (keywords keywords' : list string)
    (mode mode' : string) (posts : list (gmap string value)) :
  texts_are_strings posts →
  lower <$> keywords = lower <$> keywords' →
  upper mode = upper mode' →
  ∃ total page more,
    search_posts lower upper (Some posts) keywords mode
    = inr (SearchResults keywords mode total page more)
    ∧ search_posts lower upper (Some posts) keywords' mode'
      = inr (SearchResults keywords' mode' total page more).
Proof.
  intros Htext Hkeywords Hmode. eexists _, _, _.
  split; [by apply search_posts_filter|].
  rewrite search_posts_filter by done.
  by rewrite (filter_ext _ _ (λ post, matcher_case keywords' keywords mode' mode post
                                        (eq_sym Hkeywords) (eq_sym Hmode))).
Qed.

Lemma matches_all_any (keywords : list string) (post : gmap string value) :
  keywords ≠ [] →
  matches_all lower keywords post = true → matches_any lower keywords post = true.
Proof.
  unfold matches_all, matches_any. intros Hne.
  destruct (lowered_text lower post) as [e|text]; [done|].
  destruct keywords as [|k ks]; [done|]. simpl.
  intros [-> _]%andb_prop. done.
Qed.

(** X7. With at least one keyword, whatever the AND mode finds the OR
    mode finds too: every post on the AND page passes the OR test, and the
    AND total is at most the OR total. *)
Theorem search_posts_and_within_or (keywords : list string) (mode_and mode_or : string)
    (posts : list (gmap string value)) :
  texts_are_strings posts →
  keywords ≠ [] →
  upper mode_and = "AND" →
  upper mode_or ≠ "AND" →
  ∃ total_and page_and more_and total_or page_or more_or,
    search_posts lower upper (Some posts) keywords mode_and
    = inr (SearchResults keywords mode_and total_and page_and more_and)
    ∧ search_posts lower upper (Some posts) keywords mode_or
      = inr (SearchResults keywords mode_or total_or page_or more_or)
    ∧ (total_and ≤ total_or)%nat
    ∧ ∀ post, post ∈ page_and → matcher lower upper keywords mode_or post = true.
Proof.
  intros Htext Hne Hand Hor. eexists _, _, _, _, _, _.
  split; [by apply search_posts_filter|]. split; [by apply search_posts_filter|].
  assert (∀ post, matcher lower upper keywords mode_and post = true →
                  matcher lower upper keywords mode_or post = true) as Himpl.
  { intros post. unfold matcher.
    rewrite (bool_decide_eq_true_2 _ Hand), (bool_decide_eq_false_2 _ Hor).
    by apply matches_all_any. }
  split; [by apply filter_length_mono|].
  intros post Hin%elem_of_take. destruct Hin as (i & Hin & _).
  apply list_elem_of_lookup_2, list_elem_of_In, filter_In in Hin.
  apply Himpl. by destruct Hin.
Qed.

Lemma search_loop_raises (keywords : list string) (mode : string)
    (posts acc : list (gmap string value)) (post : gmap string value) :
  post ∈ posts →
  lowered_text lower post = inl (AttributeError "lower") →
  search_loop lower upper keywords mode posts acc = inl (AttributeError "lower").
Proof.
  intros Hin He. revert acc.
  induction Hin as [post posts | post other posts _ IH]; intros acc; simpl.
  - by rewrite He.
  - destruct (lowered_text lower other) as [e|text] eqn:Hother.
    + unfold lowered_text in Hother.
      by destruct (default (VStr EmptyString) (other !! "Text")); simplify_eq.
    + simpl. case_bool_decide.
      * destruct (forallb _ keywords); by apply IH.
      * destruct (existsb _ keywords); by apply IH.
Qed.

(** X8. [search_posts] is partial in the stored data: as soon as one
    saved post has a Text that is not a string (a null, a number, a
    boolean), the call raises [AttributeError], whatever the keywords and
    the mode. *)
Theorem search_posts_partial (keywords : list string) (mode : string)
    (posts : list (gmap string value)) (post : gmap string value) (v : value) :
  post ∈ posts →
  post !! "Text" = Some v →
  (∀ s, v ≠ VStr s) →
  search_posts lower upper (Some posts) keywords mode = inl (AttributeError "lower").
Proof.
  intros Hin Hv Hnot. unfold search_posts.
  rewrite (search_loop_raises keywords mode posts [] post Hin); [done|].
  unfold lowered_text. rewrite Hv. simpl. destruct v; try done. by destruct (Hnot s).
Qed.

End Search.

(** *** The searches on ASCII text *)

Lemma lower_upper_ascii (c : ascii) :
  Str.lower_ascii (Str.upper_ascii c) = Str.lower_ascii c.
Proof. by destruct c as [[] [] [] [] [] [] [] []]. Qed.

Lemma lower_upper (s : string) :
  Str.ascii_lower (Str.ascii_upper s) = Str.ascii_lower s.
Proof.
  induction s as [|c s IH]; [done|].
  unfold Str.ascii_lower, Str.ascii_upper in *. simpl. by rewrite lower_upper_ascii, IH.
Qed.

Lemma upper_lower_ascii (c : ascii) :
  Str.upper_ascii (Str.lower_ascii c) = Str.upper_ascii c.
Proof. by destruct c as [[] [] [] [] [] [] [] []]. Qed.

Lemma upper_lower (s : string) :
  Str.ascii_upper (Str.ascii_lower s) = Str.ascii_upper s.
Proof.
  induction s as [|c s IH]; [done|].
  unfold Str.ascii_lower, Str.ascii_upper in *. simpl. by rewrite upper_lower_ascii, IH.
Qed.

Lemma search_posts_results_witness :
  ∃ found,
    found = List.filter (matcher Str.ascii_lower Str.ascii_upper ["rust"; "release"] "or")
              [Fixtures.post_march; Fixtures.post_june; Fixtures.post_undated]
    ∧ search_posts Str.ascii_lower Str.ascii_upper
        (Some [Fixtures.post_march; Fixtures.post_june; Fixtures.post_undated])
        ["rust"; "release"] "or"
      = inr (SearchResults ["rust"; "release"] "or" (length found) (take 5 found)
               (bool_decide (5 < length found)%nat))
    ∧ sublist found [Fixtures.post_march; Fixtures.post_june; Fixtures.post_undated]
    ∧ ∀ post, post ∈ take 5 found →
              matcher Str.ascii_lower Str.ascii_upper ["rust"; "release"] "or" post = true.
Proof.
  apply (search_posts_results Str.ascii_lower Str.ascii_upper ["rust"; "release"] "or"
           [Fixtures.post_march; Fixtures.post_june; Fixtures.post_undated]).
  repeat constructor; eexists; by vm_compute.
Defined.

Lemma search_posts_case_insensitive_witness :
  ∃ total page more,
    search_posts Str.ascii_lower Str.ascii_upper
      (Some [Fixtures.post_march; Fixtures.post_june]) ["rust"; "Hiring"] "and"
    = inr (SearchResults ["rust"; "Hiring"] "and" total page more)
    ∧ search_posts Str.ascii_lower Str.ascii_upper
        (Some [Fixtures.post_march; Fixtures.post_june])
        (Str.ascii_upper <$> ["rust"; "Hiring"]) (Str.ascii_lower "AND")
      = inr (SearchResults (Str.ascii_upper <$> ["rust"; "Hiring"]) (Str.ascii_lower "AND")
               total page more).
Proof.
  apply (search_posts_case_insensitive Str.ascii_lower Str.ascii_upper
           ["rust"; "Hiring"] (Str.ascii_upper <$> ["rust"; "Hiring"])
           "and" (Str.ascii_lower "AND") [Fixtures.post_march; Fixtures.post_june]).
  - repeat constructor; eexists; by vm_compute.
  - rewrite <- list_fmap_compose. apply list_fmap_ext. intros _ k _. simpl.
    by rewrite lower_upper.
  - by rewrite upper_lower.
Defined.

Lemma search_posts_and_within_or_witness :
  ∃ total_and page_and more_and total_or page_or more_or,
    search_posts Str.ascii_lower Str.ascii_upper
      (Some [Fixtures.post_march; Fixtures.post_june]) ["rust"; "our"] "AND"
    = inr (SearchResults ["rust"; "our"] "AND" total_and page_and more_and)
    ∧ search_posts Str.ascii_lower Str.ascii_upper
        (Some [Fixtures.post_march; Fixtures.post_june]) ["rust"; "our"] "OR"
      = inr (SearchResults ["rust"; "our"] "OR" total_or page_or more_or)
    ∧ (total_and ≤ total_or)%nat
    ∧ ∀ post, post ∈ page_and →
              matcher Str.ascii_lower Str.ascii_upper ["rust"; "our"] "OR" post = true.
Proof.
  apply (search_posts_and_within_or Str.ascii_lower Str.ascii_upper
           ["rust"; "our"] "AND" "OR" [Fixtures.post_march; Fixtures.post_june]).
  - repeat constructor; eexists; by vm_compute.
  - discriminate.
  - reflexivity.
  - discriminate.
Defined.

Lemma search_posts_partial_witness :
  search_posts Str.ascii_lower Str.ascii_upper
    (Some [Fixtures.post_march; {[ "Text" := VNone ]}; Fixtures.post_june])
    ["rust"] "OR"
  = inl (AttributeError "lower").
Proof.
  apply (search_posts_partial Str.ascii_lower Str.ascii_upper
           ["rust"] "OR" _ {[ "Text" := VNone ]} VNone).
  - apply list_elem_of_further, list_elem_of_here.
  - reflexivity.
  - discriminate.
Defined.

End SearchFacts.

(** ** Dates of the saved posts *)

Module DateFacts.
Import Posts Aux.

Lemma digit_bounds (c : ascii) (d : Z) : digit c = Some d → 0 ≤ d ≤ 9.
Proof.
  unfold digit. destruct (_ && _) eqn:Hc; [|done].
  apply andb_prop in Hc as [Hlo%Nat.leb_le Hhi%Nat.leb_le]. intros [= <-]. lia.
Qed.

Lemma digit_in_bounds (lo hi : Z) (c : ascii) (d : Z) :
  digit_in lo hi c = Some d → lo ≤ d ≤ hi ∧ 0 ≤ d ≤ 9.
Proof.
  unfold digit_in. destruct (digit c) as [d'|] eqn:Hd; [|done]. simpl.
  case_bool_decide; [|done]. intros [= <-]. split; [done|]. by eapply digit_bounds.
Qed.

Lemma match_Y_bounds (s rest : string) (y : Z) :
  match_Y s = Some (y, rest) → 0 ≤ y ≤ 9999.
Proof.
  unfold match_Y. destruct s as [|a [|b [|c [|d s]]]]; try done.
  destruct (digit a) as [a'|] eqn:Ha; [|done].
  destruct (digit b) as [b'|] eqn:Hb; [|done].
  destruct (digit c) as [c'|] eqn:Hc; [|done].
  destruct (digit d) as [d'|] eqn:Hd; [|done]. simpl. intros [= <- _].
  apply digit_bounds in Ha, Hb, Hc, Hd. lia.
Qed.

(** Destruct the tests and digit lookups of the alternatives. *)
Ltac split_alternatives :=
  repeat first
    [ progress simpl
    | case_bool_decide
    | match goal with
      | |- context [digit_in ?lo ?hi ?c] =>
        let H := fresh "Hd" in
        destruct (digit_in lo hi c) eqn:H; [apply digit_in_bounds in H|]
      | |- context [digit ?c] =>
        let H := fresh "Hd" in
        destruct (digit c) eqn:H; [apply digit_bounds in H|]
      end ].

Lemma alternatives_m_bounds (s : string) :
  Forall (λ alt, 1 ≤ alt.1 ≤ 12) (alternatives_m s).
Proof.
  unfold alternatives_m. destruct s as [|a [|b s]]; split_alternatives;
    repeat constructor; simpl; lia.
Qed.

Lemma alternatives_d_bounds (s : string) :
  Forall (λ alt, 1 ≤ alt.1 ≤ 31) (alternatives_d s).
Proof.
  unfold alternatives_d. destruct s as [|a [|b s]]; split_alternatives;
    repeat constructor; simpl; lia.
Qed.

Lemma match_ymd_bounds (s rest : string) (dt : datetime) :
  match_ymd s = Some (dt, rest) →
  0 ≤ year dt ≤ 9999 ∧ 1 ≤ month dt ≤ 12 ∧ 1 ≤ day dt ≤ 31.
Proof.
  unfold match_ymd.
  destruct (match_Y s) as [[y s1]|] eqn:HY; [|done]. simpl.
  destruct (match_dash s1) as [s2|]; [|done]. simpl.
  intros Hhead%head_Some_elem_of.
  apply list_elem_of_omap in Hhead as ([m s3] & Hm & Hrest).
  destruct (match_dash s3) as [s4|]; [|done]. simpl in Hrest.
  destruct (head (alternatives_d s4)) as [[d s5]|] eqn:Hd; [|done].
  simpl in Hrest. injection Hrest as <- <-.
  apply head_Some_elem_of in Hd.
  pose proof (alternatives_m_bounds s2) as Hms.
  pose proof (alternatives_d_bounds s4) as Hds.
  rewrite Forall_forall in Hms, Hds.
  specialize (Hms _ Hm). specialize (Hds _ Hd).
  apply match_Y_bounds in HY. simpl in *. lia.
Qed.

(** What [strptime] accepts is a date of the calendar. *)
Lemma strptime_ymd_valid (s : string) (dt : datetime) :
  strptime_ymd s = inr dt → valid_date dt.
Proof.
  unfold strptime_ymd.
  destruct (match_ymd s) as [[dt' rest]|] eqn:Hmatch; [|done].
  destruct (negb _); [done|].
  case_bool_decide as Hcheck; [|done]. intros [= <-].
  apply match_ymd_bounds in Hmatch. unfold valid_date. lia.
Qed.

Lemma date_filter_filter (start_dt end_dt : datetime) (posts : list (gmap string value)) :
  Forall (λ post, ∃ dt, posted_datetime post = inr dt) posts →
  date_filter start_dt end_dt posts = inr (List.filter (in_range start_dt end_dt) posts).
Proof.
  induction 1 as [|post posts [dt Hdt] _ IH]; simpl; [done|].
  unfold in_range at 1. rewrite Hdt, IH. simpl.
  by destruct (datetime_le start_dt dt && datetime_le dt end_dt).
Qed.

Lemma datetime_le_trans (a b c : datetime) :
  datetime_le a b = true → datetime_le b c = true → datetime_le a c = true.
Proof.
  unfold datetime_le. rewrite !bool_decide_eq_true. lia.
Qed.

(** X9. When the two argument dates and every stored date parse,
    [get_posts_by_date] returns, in file order and without any cap, the
    posts whose date lies between the two bounds, both included;
    [total_results] is their number and each of them carries a date of the
    calendar. *)
Theorem get_posts_by_date_results (posts : list (gmap string value))
    (start_date end_date : string) (start_dt end_dt : datetime) :
  strptime_ymd start_date = inr start_dt →
  strptime_ymd end_date = inr end_dt →
  Forall (λ post, ∃ dt, posted_datetime post = inr dt) posts →
  ∃ found,
    get_posts_by_date (Some posts) start_date end_date
    = inr (DateResults start_date end_date (length found) found)
    ∧ found = List.filter (in_range start_dt end_dt) posts
    ∧ sublist found posts
    ∧ ∀ post, post ∈ found →
        ∃ dt, posted_datetime post = inr dt
              ∧ valid_date dt
              ∧ datetime_le start_dt dt = true
              ∧ datetime_le dt end_dt = true.
Proof.
  intros Hstart Hend Hdated. eexists. split_and!; [|reflexivity| |].
  - unfold get_posts_by_date. rewrite Hstart, Hend. simpl.
    by rewrite date_filter_filter.
  - apply SearchFacts.filter_sublist.
  - intros post [_ Hin]%list_elem_of_In%filter_In.
    unfold in_range in Hin.
    destruct (posted_datetime post) as [e|dt] eqn:Hdt; [done|].
    apply andb_prop in Hin as [Hlo Hhi]. exists dt. split_and!; try done.
    unfold posted_datetime in Hdt.
    destruct (post !! "Posted Date") as [[| | |s]|]; try done.
    by eapply strptime_ymd_valid.
Qed.

Lemma get_posts_by_date_results_witness :
  ∃ found,
    get_posts_by_date (Some [Fixtures.post_march; Fixtures.post_june])
      "2024-03-01" "2024-6-14"
    = inr (DateResults "2024-03-01" "2024-6-14" (length found) found)
    ∧ found = List.filter (in_range (Datetime 2024 3 1) (Datetime 2024 6 14))
                [Fixtures.post_march; Fixtures.post_june]
    ∧ sublist found [Fixtures.post_march; Fixtures.post_june]
    ∧ ∀ post, post ∈ found →
        ∃ dt, posted_datetime post = inr dt
              ∧ valid_date dt
              ∧ datetime_le (Datetime 2024 3 1) dt = true
              ∧ datetime_le dt (Datetime 2024 6 14) = true.
Proof.
  apply (get_posts_by_date_results [Fixtures.post_march; Fixtures.post_june]
           "2024-03-01" "2024-6-14" (Datetime 2024 3 1) (Datetime 2024 6 14)).
  - reflexivity.
  - reflexivity.
  - repeat constructor; eexists; by vm_compute.
Defined.

(** X10. A range whose start lies after its end is not an error: when the
    stored dates parse, the call returns a dictionary with no post. *)
Theorem get_posts_by_date_empty_range (posts : list (gmap string value))
    (start_date end_date : string) (start_dt end_dt : datetime) :
  strptime_ymd start_date = inr start_dt →
  strptime_ymd end_date = inr end_dt →
  datetime_le start_dt end_dt = false →
  Forall (λ post, ∃ dt, posted_datetime post = inr dt) posts →
  get_posts_by_date (Some posts) start_date end_date
  = inr (DateResults start_date end_date 0 []).
Proof.
  intros Hstart Hend Hafter Hdated.
  unfold get_posts_by_date. rewrite Hstart, Hend. simpl.
  rewrite date_filter_filter by done.
  assert (List.filter (in_range start_dt end_dt) posts = []) as ->; [|done].
  clear Hdated. induction posts as [|post posts IH]; simpl; [done|].
  destruct (in_range start_dt end_dt post) eqn:Hin; [|done].
  unfold in_range in Hin. destruct (posted_datetime post) as [e|dt]; [done|].
  apply andb_prop in Hin as [Hlo Hhi].
  by rewrite (datetime_le_trans _ _ _ Hlo Hhi) in Hafter.
Qed.

Lemma get_posts_by_date_empty_range_witness :
  get_posts_by_date (Some [Fixtures.post_march; Fixtures.post_june])
    "2024-12-31" "2024-01-01"
  = inr (DateResults "2024-12-31" "2024-01-01" 0 []).
Proof.
  apply (get_posts_by_date_empty_range [Fixtures.post_march; Fixtures.post_june]
           "2024-12-31" "2024-01-01" (Datetime 2024 12 31) (Datetime 2024 1 1)).
  - reflexivity.
  - reflexivity.
  - reflexivity.
  - repeat constructor; eexists; by vm_compute.
Defined.

End DateFacts.

(** ** The date a fetched post is saved with *)

Module FetchFacts.
Import Posts Aux.

(** The first piece of a split has no separator in it, and the string is
    that piece alone or that piece, a separator and the remainder. *)
Lemma split_first (s : string) :
  ∃ w ws,
    Str.split " " s = w :: ws
    ∧ no_space w = true
    ∧ (ws = [] → s = w)
    ∧ (ws ≠ [] → ∃ rest, s = w +:+ " " +:+ rest).
Proof.
  induction s as [|c s (w & ws & Hsplit & Hw & Hone & Hmore)]; simpl.
  - by exists EmptyString, [].
  - case_bool_decide as Hc.
    + subst c. exists EmptyString, (Str.split " " s). split_and!; try done.
      * by rewrite Hsplit.
      * intros _. by exists s.
    + rewrite Hsplit. exists (String c w), ws. split_and!; try done.
      * simpl. by rewrite bool_decide_eq_false_2.
      * intros Hws. by rewrite (Hone Hws).
      * intros Hws. destruct (Hmore Hws) as [rest ->]. by exists rest.
Qed.

Lemma split_at_space (d t : string) :
  no_space d = true → Str.split " " (d +:+ " " +:+ t) = d :: Str.split " " t.
Proof.
  induction d as [|c d IH]; intros Hd.
  - done.
  - simpl in Hd. apply andb_prop in Hd as [Hc%negb_true_iff%bool_decide_eq_false Hd].
    rewrite StrFacts.app_cons. simpl. rewrite bool_decide_eq_false_2 by done.
    by rewrite (IH Hd).
Qed.

(** X11. The Posted Date saved for a fetched post is the part of its
    posted field before the first space, never a string with a space in
    it: the empty string when the post has no posted field, the date [d]
    when the field is [d], a space and a time. *)
Theorem posted_date_first_piece (post : gmap string value) :
  (post !! "posted" = None → posted_date post = inr (VStr EmptyString))
  ∧ (∀ s, post !! "posted" = Some (VStr s) →
          ∃ w, posted_date post = inr (VStr w)
               ∧ no_space w = true
               ∧ (s = w ∨ ∃ rest, s = w +:+ " " +:+ rest))
  ∧ (∀ d t, post !! "posted" = Some (VStr (d +:+ " " +:+ t)) →
            no_space d = true →
            posted_date post = inr (VStr d)).
Proof.
  unfold posted_date. split_and!.
  - by intros ->.
  - intros s ->. simpl.
    destruct (split_first s) as (w & ws & -> & Hw & Hone & Hmore).
    exists w. split_and!; try done.
    destruct ws as [|w' ws]; [left; by apply Hone | right; by apply Hmore].
  - intros d t -> Hd. simpl. by rewrite split_at_space.
Qed.

Lemma posted_date_first_piece_witness :
  posted_date {[ "posted" := VStr "2024-03-01 10:15:00" ]} = inr (VStr "2024-03-01")
  ∧ posted_date {[ "text" := VStr "no date here" ]} = inr (VStr EmptyString).
Proof.
  split.
  - apply (proj2 (proj2 (posted_date_first_piece {[ "posted" := VStr "2024-03-01 10:15:00" ]}))
             "2024-03-01" "10:15:00"); reflexivity.
  - by apply (proj1 (posted_date_first_piece {[ "text" := VStr "no date here" ]})).
Defined.

End FetchFacts.

(** ** Ranking the saved posts *)

Module RankingFacts.
Import Posts PostsTools Aux.

Section Sorting.

Context {A : Type} (num : A → Z).

Let gt (x y : A) : bool := bool_decide (num y < num x).
Let ge (x y : A) : Prop := num y ≤ num x.

Lemma insert_desc_perm (cmp : A → A → bool) (x : A) (l : list A) :
  insert_desc cmp x l ≡ₚ x :: l.
Proof.
  induction l as [|y l IH]; simpl; [done|].
  destruct (cmp y x); [|done]. rewrite IH. apply Permutation_swap.
Qed.

Lemma sort_desc_perm (cmp : A → A → bool) (l : list A) : sort_desc cmp l ≡ₚ l.
Proof.
  induction l as [|x l IH]; simpl; [done|].
  fold (sort_desc cmp l). by rewrite insert_desc_perm, IH.
Qed.

Lemma insert_desc_sorted (x : A) (l : list A) :
  StronglySorted ge l → StronglySorted ge (insert_desc gt x l).
Proof.
  induction 1 as [|y l Hl IH Hy]; simpl; [repeat constructor|].
  unfold gt at 1. case_bool_decide as Hxy.
  - constructor; [done|]. rewrite insert_desc_perm. constructor; [unfold ge; lia | done].
  - constructor; [by constructor|]. constructor; [unfold ge; lia|].
    eapply Forall_impl; [exact Hy|]. unfold ge. intros z ?. lia.
Qed.

Lemma sort_desc_sorted (l : list A) : StronglySorted ge (sort_desc gt l).
Proof.
  induction l as [|x l IH]; simpl; [constructor|]. by apply insert_desc_sorted.
Qed.

(** Inserting keeps the order among the elements of any one key. *)
Lemma insert_desc_stable (k : Z) (x : A) (l : list A) :
  List.filter (λ y, bool_decide (num y = k)) (insert_desc gt x l)
  = List.filter (λ y, bool_decide (num y = k)) (x :: l).
Proof.
  induction l as [|y l IH]; [done|]. simpl insert_desc.
  unfold gt at 1. case_bool_decide as Hxy; [|done].
  simpl in *. rewrite IH.
  case_bool_decide as Hx; [|done]. by rewrite bool_decide_eq_false_2 by lia.
Qed.

Lemma sort_desc_stable (k : Z) (l : list A) :
  List.filter (λ y, bool_decide (num y = k)) (sort_desc gt l)
  = List.filter (λ y, bool_decide (num y = k)) l.
Proof.
  induction l as [|x l IH]; [done|]. simpl sort_desc. fold (sort_desc gt l).
  rewrite insert_desc_stable. simpl. by rewrite IH.
Qed.

(** Two comparisons that agree on the elements of the list sort it the
    same way. *)
Lemma insert_desc_ext (cmp cmp' : A → A → bool) (x : A) (l : list A) :
  (∀ y, y ∈ l → cmp y x = cmp' y x) → insert_desc cmp x l = insert_desc cmp' x l.
Proof.
  induction l as [|y l IH]; intros Hagree; simpl; [done|].
  rewrite <- (Hagree y) by (by left).
  destruct (cmp y x); [|done]. f_equal. apply IH. intros z Hz. apply Hagree. by right.
Qed.

Lemma sort_desc_ext (cmp cmp' : A → A → bool) (l : list A) :
  (∀ x y, x ∈ l → y ∈ l → cmp x y = cmp' x y) → sort_desc cmp l = sort_desc cmp' l.
Proof.
  induction l as [|x l IH]; intros Hagree; simpl; [done|].
  fold (sort_desc cmp l) (sort_desc cmp' l).
  rewrite IH by (intros y z Hy Hz; apply Hagree; by right).
  apply insert_desc_ext. intros y Hy.
  apply Hagree; [right | left]. by rewrite sort_desc_perm in Hy.
Qed.

End Sorting.

Lemma key_gt_num (metric : string) (p q : gmap string value) :
  is_num (metric_key metric p) = true →
  is_num (metric_key metric q) = true →
  key_gt (metric_key metric p) (metric_key metric q)
  = bool_decide (metric_num metric q < metric_num metric p).
Proof.
  unfold metric_num.
  by destruct (metric_key metric p), (metric_key metric q).
Qed.

(** On numeric keys the sort of [get_top_posts] is the stable descending
    sort by number. *)
Lemma sorted_by_metric_num (metric : string) (posts : list (gmap string value)) :
  Forall (λ post, is_num (metric_key metric post) = true) posts →
  sorted_by_metric metric posts
  = inr (sort_desc (λ p q, bool_decide (metric_num metric q < metric_num metric p)) posts).
Proof.
  intros Hnum. unfold sorted_by_metric. case_bool_decide as Hshort.
  - by destruct posts as [|p [|q posts]]; [..|simpl in Hshort; lia].
  - assert (forallb is_num (metric_key metric <$> posts) = true) as ->.
    { clear Hshort. induction Hnum as [|p posts Hp _ IH]; simpl; [done|].
      rewrite Hp. simpl. exact IH. }
    simpl. f_equal. apply sort_desc_ext. intros p q Hp Hq.
    rewrite Forall_forall in Hnum. apply key_gt_num; by apply Hnum.
Qed.

Lemma slice_prefix {A} (l : list A) (n : Z) :
  0 ≤ n → slice l 0 n = take (Z.to_nat n) l.
Proof.
  intros Hn. rewrite PagingFacts.slice_nonneg by lia.
  rewrite Z.sub_0_r. by rewrite drop_0.
Qed.

(** X12. For one of the two metrics, a file whose values of that metric
    are numbers (a missing one counts as 0) and a [top_n] that is not
    negative, [get_top_posts] returns [min(top_n, total)] posts, with no
    cap of its own, in descending order of the metric; they are posts of
    the file, each with a metric at least as high as that of every post
    left out. *)
Theorem get_top_posts_ranked (posts : list (gmap string value)) (metric : string)
    (top_n : Z) :
  metric ∈ ["Like Count"; "Total Reactions"] →
  Forall (λ post, is_num (metric_key metric post) = true) posts →
  0 ≤ top_n →
  ∃ top rest,
    get_top_posts (Some posts) metric top_n = inr (TopPosts metric top)
    ∧ top ++ rest ≡ₚ posts
    ∧ length top = (Z.to_nat top_n `min` length posts)%nat
    ∧ StronglySorted (λ p q, metric_num metric q ≤ metric_num metric p) top
    ∧ ∀ p q, p ∈ top → q ∈ rest → metric_num metric q ≤ metric_num metric p.
Proof.
  intros Hmetric Hnum Hn.
  set (sorted := sort_desc
                   (λ p q, bool_decide (metric_num metric q < metric_num metric p)) posts).
  assert (StronglySorted (λ p q, metric_num metric q ≤ metric_num metric p)
            (take (Z.to_nat top_n) sorted ++ drop (Z.to_nat top_n) sorted)) as Hsorted.
  { rewrite take_drop. apply (sort_desc_sorted (metric_num metric)). }
  exists (take (Z.to_nat top_n) sorted), (drop (Z.to_nat top_n) sorted).
  split_and!.
  - unfold get_top_posts. rewrite bool_decide_eq_true_2 by done.
    rewrite sorted_by_metric_num by done. simpl.
    by rewrite slice_prefix.
  - rewrite take_drop. apply sort_desc_perm.
  - rewrite length_take. unfold sorted.
    by rewrite (Permutation_length (sort_desc_perm _ posts)).
  - by eapply StronglySorted_app_1_l.
  - intros p q Hp Hq. by eapply (StronglySorted_app_1_elem_of _ _ _ p q Hsorted).
Qed.

Lemma get_top_posts_ranked_witness :
  ∃ top rest,
    get_top_posts (Some MoreFixtures.seven_posts) "Like Count" 3
    = inr (TopPosts "Like Count" top)
    ∧ top ++ rest ≡ₚ MoreFixtures.seven_posts
    ∧ length top = (Z.to_nat 3 `min` length MoreFixtures.seven_posts)%nat
    ∧ StronglySorted (λ p q, metric_num "Like Count" q ≤ metric_num "Like Count" p) top
    ∧ ∀ p q, p ∈ top → q ∈ rest →
             metric_num "Like Count" q ≤ metric_num "Like Count" p.
Proof.
  apply (get_top_posts_ranked MoreFixtures.seven_posts "Like Count" 3).
  - apply list_elem_of_here.
  - repeat constructor.
  - lia.
Defined.

(** X13. The ranking is stable: when [top_n] covers the whole file, the
    posts that share a value of the metric come out in the order the file
    has them. *)
Theorem get_top_posts_stable (posts : list (gmap string value)) (metric : string)
    (top_n : Z) :
  metric ∈ ["Like Count"; "Total Reactions"] →
  Forall (λ post, is_num (metric_key metric post) = true) posts →
  Z.of_nat (length posts) ≤ top_n →
  ∃ top,
    get_top_posts (Some posts) metric top_n = inr (TopPosts metric top)
    ∧ top ≡ₚ posts
    ∧ ∀ k, List.filter (λ post, bool_decide (metric_num metric post = k)) top
           = List.filter (λ post, bool_decide (metric_num metric post = k)) posts.
Proof.
  intros Hmetric Hnum Hn.
  exists (sort_desc (λ p q, bool_decide (metric_num metric q < metric_num metric p)) posts).
  split_and!.
  - unfold get_top_posts. rewrite bool_decide_eq_true_2 by done.
    rewrite sorted_by_metric_num by done. simpl.
    rewrite slice_prefix by lia. rewrite take_ge; [done|].
    rewrite (Permutation_length (sort_desc_perm _ posts)). lia.
  - apply sort_desc_perm.
  - intros k. apply (sort_desc_stable (metric_num metric)).
Qed.

Lemma get_top_posts_stable_witness :
  ∃ top,
    get_top_posts (Some MoreFixtures.seven_posts) "Like Count" 7
    = inr (TopPosts "Like Count" top)
    ∧ top ≡ₚ MoreFixtures.seven_posts
    ∧ ∀ k, List.filter (λ post, bool_decide (metric_num "Like Count" post = k)) top
           = List.filter (λ post, bool_decide (metric_num "Like Count" post = k))
               MoreFixtures.seven_posts.
Proof.
  apply (get_top_posts_stable MoreFixtures.seven_posts "Like Count" 7).
  - apply list_elem_of_here.
  - repeat constructor.
  - simpl. lia.
Defined.

(** The seven posts ranked: the two posts with three likes stay in file
    order, "one" ahead of "three". *)
Example get_top_posts_seven :
  (λ r, match r with
        | inr (TopPosts _ top) => (λ post : gmap string value, post !! "Text") <$> top
        | _ => []
        end) (get_top_posts (Some MoreFixtures.seven_posts) "Like Count" 5)
  = [Some (VStr "four"); Some (VStr "two"); Some (VStr "six");
     Some (VStr "one"); Some (VStr "three")].
Proof. by vm_compute. Qed.

End RankingFacts.

(** ** More on the extractors *)

Module ExtractorFacts.
Import Dom Activity Items.

Lemma handler_safe_true (items : list element) : handler_safe true items = true.
Proof. induction items as [|item rest IH]; simpl; [done|]. by destruct (has_actor_title item). Qed.

(** The handler is safe exactly when no item is rendered or the first one
    has an actor title. *)
Lemma handler_safe_false (items : list element) :
  handler_safe false items = true
  ↔ items = [] ∨ ∃ first rest, items = first :: rest ∧ has_actor_title first = true.
Proof.
  destruct items as [|first rest]; simpl.
  - split; [by left | done].
  - destruct (has_actor_title first) eqn:Hfirst.
    + rewrite handler_safe_true. split; [|done]. intros _. right. by exists first, rest.
    + split; [done|]. intros [|(f & r & [= <- <-] & Hf)]; [done | congruence].
Qed.

Lemma comments_loop_full (items : list element) (st : locals) :
  MAX_COMMENTS ≤ Z.of_nat (length (comments st)) → comments_loop items st = (st, None).
Proof.
  intros Hfull. destruct items as [|item rest]; [done|].
  rewrite ActivityFacts.comments_loop_cons. by rewrite bool_decide_eq_true_2.
Qed.

(** The loop over a batch in two parts. *)
Lemma comments_loop_app (l1 l2 : list element) (st : locals) :
  comments_loop (l1 ++ l2) st
  = match comments_loop l1 st with
    | (st1, None) => comments_loop l2 st1
    | (st1, Some e) => (st1, Some e)
    end.
Proof.
  revert st. induction l1 as [|item l1 IH]; intros st; [done|].
  rewrite <- app_comm_cons, !ActivityFacts.comments_loop_cons.
  case_bool_decide as Hfull; [by rewrite comments_loop_full|].
  destruct (comment_try_body _ _ _) as [[a|] [e|c]]; simpl; by rewrite ?IH.
Qed.

(** One iteration that the handler survives: the item adds its record, or
    a warning that names what [post_author] holds by then. *)
Lemma comments_loop_step (item : element) (rest : list element) (st : locals) :
  Z.of_nat (length (comments st)) < MAX_COMMENTS →
  handler_safe (bool_decide (is_Some (post_author_var st))) (item :: rest) = true →
  ∃ st1,
    comments_loop (item :: rest) st = comments_loop rest st1
    ∧ handler_safe (bool_decide (is_Some (post_author_var st1))) rest = true
    ∧ post_author_var st1
      = match find_element sel_actor_title item with
        | inr t => Some (text t)
        | inl _ => post_author_var st
        end
    ∧ ((∃ c, comment_of item = Some c
             ∧ comments st1 = comments st ++ [c] ∧ log st1 = log st)
       ∨ (∃ a e, comment_of item = None
                 ∧ (comment_try_body (classify item) item None).2 = inl e
                 ∧ post_author_var st1 = Some a
                 ∧ comments st1 = comments st
                 ∧ log st1 = log st
                     ++ [Warning ("Could not parse a comment/reply item for " +:+ a)
                           (Some e)])).
Proof.
  intros Hroom Hsafe. rewrite ActivityFacts.comments_loop_cons.
  rewrite bool_decide_eq_false_2 by lia.
  unfold comment_of.
  rewrite <- (ActivityFacts.comment_try_body_outcome _ _ (post_author_var st)).
  rewrite (ActivityFacts.comment_try_body_bound _ _ (post_author_var st)).
  simpl in Hsafe. unfold has_actor_title in Hsafe.
  destruct (comment_try_body (classify item) item (post_author_var st)).2 as [e|c] eqn:Hbody.
  - destruct (find_element sel_actor_title item) as [e'|t].
    + apply andb_prop in Hsafe as [Hbound Hsafe].
      apply bool_decide_eq_true in Hbound as [a Ha]. rewrite Ha in *.
      eexists. split_and!; [reflexivity | done | done |].
      right. by exists a, e.
    + eexists. split_and!; [reflexivity | done | done |].
      right. by exists (text t), e.
  - apply ActivityFacts.comment_try_body_ok in Hbody as Htitled.
    unfold has_actor_title in Htitled.
    destruct (find_element sel_actor_title item) as [e'|t]; [done|].
    eexists. split_and!; [reflexivity | done | done |].
    left. by exists c.
Qed.

Lemma comments_loop_log_prefix (items : list element) (st : locals) :
  log st `prefix_of` log (comments_loop items st).1.
Proof.
  revert st. induction items as [|item rest IH]; intros st; [done|].
  rewrite ActivityFacts.comments_loop_cons.
  case_bool_decide; [done|].
  destruct (comment_try_body _ _ _) as [[a|] [e|c]]; simpl; try done.
  - etrans; [|apply IH]. simpl. by apply prefix_app_r.
  - apply (IH (Locals _ _ _)).
  - apply (IH (Locals _ _ _)).
Qed.

Lemma comments_loop_warnings (items : list element) (st : locals) (r : log_record) :
  r ∈ log (comments_loop items st).1 →
  r ∈ log st ∨ ∃ msg e, r = Warning msg (Some e).
Proof.
  revert st. induction items as [|item rest IH]; intros st; [by left|].
  rewrite ActivityFacts.comments_loop_cons.
  case_bool_decide; [by left|].
  destruct (comment_try_body _ _ _) as [[a|] [e|c]]; simpl; try (by left).
  - intros [Hr|Hr]%IH; [|by right]. simpl in Hr.
    apply elem_of_app in Hr as [Hr|Hr%list_elem_of_singleton]; [by left|].
    right. by eexists _, _.
  - intros [Hr|Hr]%IH; [by left | by right].
  - intros [Hr|Hr]%IH; [by left | by right].
Qed.

(** The loop accounts for every item: with room for all of them, each one
    adds a record or a warning. *)
Lemma comments_loop_account (items : list element) (st : locals) :
  handler_safe (bool_decide (is_Some (post_author_var st))) items = true →
  (length (comments st) + length items ≤ 20)%nat →
  (length (comments (comments_loop items st).1)
   + length (log (comments_loop items st).1)
   = length (comments st) + length (log st) + length items)%nat.
Proof.
  revert st. induction items as [|item rest IH]; intros st Hsafe Hroom.
  - simpl. lia.
  - destruct (comments_loop_step item rest st) as (st1 & -> & Hsafe1 & _ & Hcase);
      [unfold MAX_COMMENTS; simpl in Hroom; lia | done |].
    simpl in Hroom.
    destruct Hcase as [(c & _ & Hc & Hl) | (a & e & _ & _ & _ & Hc & Hl)].
    + rewrite IH; [|done|rewrite Hc, length_app; simpl; lia].
      rewrite Hc, Hl, length_app. simpl. lia.
    + rewrite IH; [|done|rewrite Hc; lia].
      rewrite Hc, Hl, length_app. simpl. lia.
Qed.

Lemma omap_length_le {A B} (f : A → option B) (l : list A) :
  (length (omap f l) ≤ length l)%nat.
Proof.
  induction l as [|x l IH]; [done|].
  change (omap f (x :: l)) with (match f x with Some y => y :: omap f l | None => omap f l end).
  destruct (f x); simpl; lia.
Qed.

Lemma find_element_untitled (item : element) :
  has_actor_title item = false →
  find_element sel_actor_title item = inl (NoSuchElementException sel_actor_title).
Proof.
  unfold has_actor_title, find_element.
  by destruct (find_elements sel_actor_title item).
Qed.

(** What [_scrape_comments] returns and logs when the handler is safe. *)
Lemma scrape_comments_log_safe (doc container : element) :
  driver_find_element sel_container doc = inr container →
  handler_safe false (find_elements sel_feed_item container) = true →
  _scrape_comments_log doc
  = (comments (comments_loop (find_elements sel_feed_item container) (Locals [] None [])).1,
     log (comments_loop (find_elements sel_feed_item container) (Locals [] None [])).1).
Proof.
  intros Hc Hsafe. unfold _scrape_comments_log. rewrite Hc.
  destruct (ActivityFacts.comments_loop_spec (find_elements sel_feed_item container)
              (Locals [] None [])) as [Hnone _]; [simpl; lia | done |].
  by destruct (comments_loop _ _) as [st [e|]].
Qed.

(** X14. [_scrape_comments] has exactly two behaviours on a page that
    shows the container. When the first rendered item has no actor title
    it returns no record and logs one error, whatever the other items are.
    Otherwise it returns, in page order, the records of the first 20 items
    whose extraction succeeds, and logs warnings only. *)
Theorem scrape_comments_cases (doc container : element) :
  driver_find_element sel_container doc = inr container →
  (∀ first rest,
     find_elements sel_feed_item container = first :: rest →
     has_actor_title first = false →
     _scrape_comments_log doc
     = ([], [Error "Error scraping comments list: " (UnboundLocalError "post_author")]))
  ∧ (find_elements sel_feed_item container = []
     ∨ (∃ first rest, find_elements sel_feed_item container = first :: rest
                      ∧ has_actor_title first = true) →
     _scrape_comments doc
     = take 20 (omap comment_of (find_elements sel_feed_item container))
     ∧ ∀ r, r ∈ (_scrape_comments_log doc).2 → ∃ msg e, r = Warning msg (Some e)).
Proof.
  intros Hc. split.
  - intros first rest Hitems Hfirst. unfold _scrape_comments_log. rewrite Hc, Hitems.
    rewrite ActivityFacts.comments_loop_cons. simpl.
    unfold comment_try_body. by rewrite (find_element_untitled first Hfirst).
  - intros Hsafe%handler_safe_false. split.
    + by apply ActivityFacts.scrape_comments_spec.
    + rewrite (scrape_comments_log_safe doc container Hc Hsafe). simpl.
      intros r [Hr|Hr]%comments_loop_warnings; [|done]. by apply elem_of_nil in Hr.
Qed.

Lemma scrape_comments_cases_witness :
  _scrape_comments (Fixtures.feed_page Fixtures.batch_third_malformed)
  = take 20 (omap comment_of Fixtures.batch_third_malformed)
  ∧ _scrape_comments_log (Fixtures.feed_page Fixtures.batch_first_malformed)
    = ([], [Error "Error scraping comments list: " (UnboundLocalError "post_author")]).
Proof.
  split.
  - apply (scrape_comments_cases (Fixtures.feed_page Fixtures.batch_third_malformed)
             (Fixtures.box "div" ["scaffold-finite-scroll__content"]
                Fixtures.batch_third_malformed) eq_refl).
    right. by eexists _, _.
  - by eapply (proj1 (scrape_comments_cases
                        (Fixtures.feed_page Fixtures.batch_first_malformed)
                        (Fixtures.box "div" ["scaffold-finite-scroll__content"]
                           Fixtures.batch_first_malformed) eq_refl)).
Defined.

(** X15. On a page of at most 20 items whose first item has an actor
    title, every item is accounted for: the number of records returned and
    the number of warnings logged add up to the number of items. *)
Theorem scrape_comments_accounts (doc container : element) (first : element)
    (rest : list element) :
  driver_find_element sel_container doc = inr container →
  find_elements sel_feed_item container = first :: rest →
  has_actor_title first = true →
  (length (first :: rest) ≤ 20)%nat →
  (length (_scrape_comments_log doc).1 + length (_scrape_comments_log doc).2
   = length (first :: rest))%nat.
Proof.
  intros Hc Hitems Hfirst Hlen.
  assert (handler_safe false (find_elements sel_feed_item container) = true) as Hsafe.
  { apply handler_safe_false. right. by exists first, rest. }
  rewrite (scrape_comments_log_safe doc container Hc Hsafe). simpl fst. simpl snd.
  rewrite Hitems in *.
  by rewrite comments_loop_account.
Qed.

Lemma scrape_comments_accounts_witness :
  (length (_scrape_comments_log (Fixtures.feed_page Fixtures.batch_third_malformed)).1
   + length (_scrape_comments_log (Fixtures.feed_page Fixtures.batch_third_malformed)).2
   = 5)%nat.
Proof.
  apply (scrape_comments_accounts (Fixtures.feed_page Fixtures.batch_third_malformed)
           (Fixtures.box "div" ["scaffold-finite-scroll__content"]
              Fixtures.batch_third_malformed)
           Fixtures.item1
           [Fixtures.item2; Fixtures.uncommented_item "Cyd" "Post three";
            Fixtures.item4; Fixtures.item5]); try reflexivity.
  simpl. lia.
Defined.

(** X16. The warning for an item that has no actor title names the author
    of the item before it: [post_author] still holds the title found
    there. *)
Theorem scrape_comments_warning_author (doc container : element)
    (pre rest : list element) (titled untitled title : element) :
  driver_find_element sel_container doc = inr container →
  find_elements sel_feed_item container = pre ++ titled :: untitled :: rest →
  (pre = [] ∨ ∃ first others, pre = first :: others ∧ has_actor_title first = true) →
  (length pre < 19)%nat →
  find_element sel_actor_title titled = inr title →
  has_actor_title untitled = false →
  Warning ("Could not parse a comment/reply item for " +:+ text title)
    (Some (NoSuchElementException sel_actor_title))
  ∈ (_scrape_comments_log doc).2.
Proof.
  intros Hc Hitems Hpre%handler_safe_false Hlen Htitle Huntitled.
  unfold _scrape_comments_log. rewrite Hc, Hitems, comments_loop_app.
  destruct (ActivityFacts.comments_loop_spec pre (Locals [] None []))
    as [Hnone Hcs]; [simpl; lia | done |].
  destruct (comments_loop pre _) as [st1 exit1]. simpl in Hnone, Hcs. subst exit1.
  assert (length (comments st1) ≤ length pre)%nat as Hst1.
  { rewrite Hcs, length_take. pose proof (omap_length_le comment_of pre). lia. }
  destruct (comments_loop_step titled (untitled :: rest) st1)
    as (st2 & -> & _ & Hbound2 & Hcase2); [unfold MAX_COMMENTS; lia | |].
  { simpl. unfold has_actor_title at 1. rewrite Htitle. simpl. rewrite Huntitled.
    apply handler_safe_true. }
  rewrite Htitle in Hbound2.
  assert (length (comments st2) ≤ S (length pre))%nat as Hst2.
  { destruct Hcase2 as [(c & _ & -> & _) | (a & e & _ & _ & _ & -> & _)];
      [rewrite length_app; simpl; lia | lia]. }
  destruct (comments_loop_step untitled rest st2)
    as (st3 & -> & _ & Hbound3 & Hcase3); [unfold MAX_COMMENTS; lia | |].
  { rewrite Hbound2. simpl. rewrite Huntitled. apply handler_safe_true. }
  rewrite (find_element_untitled untitled Huntitled), Hbound2 in Hbound3.
  destruct Hcase3 as [(c & Hof & _) | (a & e & _ & He & Ha & _ & Hlog)].
  { unfold comment_of, comment_try_body in Hof.
    by rewrite (find_element_untitled untitled Huntitled) in Hof. }
  unfold comment_try_body in He.
  rewrite (find_element_untitled untitled Huntitled) in He. simpl in He.
  injection He as <-. rewrite Hbound3 in Ha. injection Ha as <-.
  assert (Warning ("Could not parse a comment/reply item for " +:+ text title)
            (Some (NoSuchElementException sel_actor_title))
          ∈ log (comments_loop rest st3).1) as Hin.
  { destruct (comments_loop_log_prefix rest st3) as [later ->].
    rewrite Hlog. apply elem_of_app. left. apply elem_of_app. right. by left. }
  destruct (comments_loop rest st3) as [st4 [e|]]; simpl in *; [|done].
  apply elem_of_app. by left.
Qed.

Lemma scrape_comments_warning_author_witness :
  Warning "Could not parse a comment/reply item for Ada"
    (Some (NoSuchElementException sel_actor_title))
  ∈ (_scrape_comments_log
       (Fixtures.feed_page
          [Fixtures.item1; Fixtures.untitled_item "Post two" "Hm" "2h"; Fixtures.item3])).2.
Proof.
  apply (scrape_comments_warning_author
           (Fixtures.feed_page
              [Fixtures.item1; Fixtures.untitled_item "Post two" "Hm" "2h"; Fixtures.item3])
           (Fixtures.box "div" ["scaffold-finite-scroll__content"]
              [Fixtures.item1; Fixtures.untitled_item "Post two" "Hm" "2h"; Fixtures.item3])
           [] [Fixtures.item3] Fixtures.item1
           (Fixtures.untitled_item "Post two" "Hm" "2h")
           (Fixtures.leaf "span" "update-components-actor__title" "Ada"));
    try reflexivity.
  - by left.
  - simpl. lia.
Defined.

Lemma find_element_spec (sel : selector) (e x : element) :
  find_element sel e = inr x → x ∈ descendants e ∧ matches sel x = true.
Proof.
  unfold find_element, find_elements.
  destruct (List.filter (matches sel) (descendants e)) as [|y l] eqn:Hfilter; [done|].
  intros [= <-].
  assert (In y (List.filter (matches sel) (descendants e))) as Hin
    by (rewrite Hfilter; by left).
  apply filter_In in Hin as [Hin Hmatch]. by rewrite list_elem_of_In.
Qed.

Lemma comment_data_fields (b : bool) (item : element) (pa pc : string) (c : comment) :
  comment_data b item pa pc = inr c → post_author c = pa ∧ post_content c = pc.
Proof.
  unfold comment_data. destruct b.
  - destruct (find_element sel_reply_entity item) as [|re]; [done|]. simpl.
    destruct (find_element sel_main_content re) as [|m]; [done|].
    destruct (find_element sel_comment_time re) as [|t]; [done|]. simpl.
    destruct (find_element sel_nonreply_entity item) as [|oe]; [done|]. simpl.
    destruct (find_element sel_main_content oe) as [|o]; [done|]. simpl.
    by intros [= <-].
  - destruct (find_element sel_comment_entity item) as [|ce]; [done|]. simpl.
    destruct (find_element sel_main_content ce) as [|m]; [done|].
    destruct (find_element sel_comment_time ce) as [|t]; [done|]. simpl.
    by intros [= <-].
Qed.

(** X17. The two extractors treat a post without a text block
    differently: it never yields a reaction record, while it can yield a
    comment record, whose [post_content] is then the empty string. *)
Theorem missing_text_block (item : element) :
  find_elements sel_text_block item = [] →
  reaction_of item = None
  ∧ ∀ c, comment_of item = Some c → post_content c = EmptyString.
Proof.
  intros Hnone. split.
  - apply ActivityFacts.reaction_of_None.
    exists sel_text_block, (NoSuchElementException sel_text_block). split.
    + apply list_elem_of_further, list_elem_of_here.
    + unfold find_element. by rewrite Hnone.
  - intros c. unfold comment_of, comment_try_body.
    destruct (find_element sel_actor_title item) as [|a]; [done|]. simpl.
    rewrite Hnone.
    destruct (comment_data _ _ _ _) as [|c'] eqn:Hdata; [done|].
    intros [= <-]. by apply comment_data_fields in Hdata as [_ ->].
Qed.

Lemma missing_text_block_witness :
  reaction_of MoreFixtures.contentless_item = None
  ∧ comment_of MoreFixtures.contentless_item
    = Some (Comment "Flo" EmptyString false None "So true" "6h").
Proof.
  split.
  - by apply (proj1 (missing_text_block MoreFixtures.contentless_item eq_refl)).
  - reflexivity.
Defined.

(** X18. In the record of a reply the two texts are told apart by the
    reply marker, not by position: [comment] is read inside an article
    that carries the class [comments-comment-entity--reply], and
    [original_comment] inside a comment entity that does not, wherever the
    two stand in the item. *)
Theorem reply_record_sources (item : element) (c : comment) :
  comment_of item = Some c →
  is_reply c = true →
  ∃ reply original m o,
    reply ∈ descendants item
    ∧ has_class "comments-comment-entity--reply" reply = true
    ∧ original ∈ descendants item
    ∧ has_class "comments-comment-entity" original = true
    ∧ has_class "comments-comment-entity--reply" original = false
    ∧ find_element sel_main_content reply = inr m
    ∧ comment_text c = text m
    ∧ find_element sel_main_content original = inr o
    ∧ original_comment c = Some (text o).
Proof.
  unfold comment_of, comment_try_body.
  destruct (find_element sel_actor_title item) as [|a]; [done|]. simpl.
  unfold comment_data. destruct (classify item).
  - destruct (find_element sel_reply_entity item) as [|re] eqn:Hre; [done|]. simpl.
    destruct (find_element sel_main_content re) as [|m] eqn:Hm; [done|].
    destruct (find_element sel_comment_time re) as [|t]; [done|]. simpl.
    destruct (find_element sel_nonreply_entity item) as [|oe] eqn:Hoe; [done|]. simpl.
    destruct (find_element sel_main_content oe) as [|o] eqn:Ho; [done|]. simpl.
    intros [= <-] _.
    apply find_element_spec in Hre as [Hre_in Hre_m].
    apply find_element_spec in Hoe as [Hoe_in Hoe_m].
    unfold matches in Hre_m, Hoe_m. simpl in Hre_m, Hoe_m.
    apply andb_prop in Hre_m as [[_ Hre_c]%andb_prop _].
    apply andb_prop in Hoe_m as [[_ Hoe_c]%andb_prop Hoe_n%negb_true_iff].
    by exists re, oe, m, o.
  - destruct (find_element sel_comment_entity item) as [|ce]; [done|]. simpl.
    destruct (find_element sel_main_content ce) as [|m]; [done|].
    destruct (find_element sel_comment_time ce) as [|t]; [done|]. simpl.
    by intros [= <-].
Qed.

Lemma reply_record_sources_witness :
  comment_of MoreFixtures.reply_first_item
  = Some (Comment "Gus" EmptyString true (Some "The first word") "Well said" "1h")
  ∧ ∃ reply original m o,
      reply ∈ descendants MoreFixtures.reply_first_item
      ∧ has_class "comments-comment-entity--reply" reply = true
      ∧ original ∈ descendants MoreFixtures.reply_first_item
      ∧ has_class "comments-comment-entity" original = true
      ∧ has_class "comments-comment-entity--reply" original = false
      ∧ find_element sel_main_content reply = inr m
      ∧ "Well said" = text m
      ∧ find_element sel_main_content original = inr o
      ∧ Some "The first word" = Some (text o).
Proof.
  split; [reflexivity|].
  exact (reply_record_sources MoreFixtures.reply_first_item
           (Comment "Gus" EmptyString true (Some "The first word") "Well said" "1h")
           eq_refl eq_refl).
Defined.

(** X19. On a page that shows the container, [_scrape_reactions] returns,
    in page order, the records of the first 20 items whose four lookups
    all succeed; items that fail are passed over without ending the
    batch. *)
Theorem scrape_reactions_in_order (doc container : element) :
  driver_find_element sel_container doc = inr container →
  _scrape_reactions doc
  = take 20 (omap reaction_of (find_elements sel_feed_item container))
  ∧ _scrape_reactions_log doc = (_scrape_reactions doc, [])
  ∧ ∀ r, r ∈ _scrape_reactions doc →
         ∃ item a c h t,
           item ∈ find_elements sel_feed_item container
           ∧ find_element sel_actor_title item = inr a
           ∧ find_element sel_text_block item = inr c
           ∧ find_element sel_header_text item = inr h
           ∧ find_element sel_sub_description item = inr t
           ∧ r = Reaction (text a) (text c) (text h) (text t).
Proof.
  intros Hc. split_and!.
  - by apply ActivityFacts.scrape_reactions_spec.
  - unfold _scrape_reactions, _scrape_reactions_log. by rewrite Hc.
  - intros r Hr.
    destruct (ActivityFacts.scrape_reactions_complete doc container r Hc Hr)
      as (item & Hitem & Hof).
    apply ActivityFacts.reaction_of_Some in Hof as (a & c & h & t & ?).
    by exists item, a, c, h, t.
Qed.

Lemma scrape_reactions_in_order_witness :
  let items := [Fixtures.reaction_item "Ada" "Post one" "likes this" "1h";
                MoreFixtures.contentless_item;
                Fixtures.reaction_item "Cyd" "Post three" "celebrates this" "3h"] in
  _scrape_reactions (Fixtures.feed_page items) = take 20 (omap reaction_of items)
  ∧ length (_scrape_reactions (Fixtures.feed_page items)) = 2%nat.
Proof.
  intros items. split; [|reflexivity].
  by apply (proj1 (scrape_reactions_in_order (Fixtures.feed_page items)
                     (Fixtures.box "div" ["scaffold-finite-scroll__content"] items)
                     eq_refl)).
Defined.

End ExtractorFacts.

(** ** More on the scroll loader and the orchestrator *)

Module SessionFacts.
Import Dom Activity Items Aux.

Lemma scroll_loop_growing (d : driver) (max_items : Z) :
  (∀ k, (scrolls d ≤ k)%nat → item_count d k < max_items) →
  (∀ k, (scrolls d ≤ k)%nat → height d (S k) ≠ height d k) →
  ∀ fuel d', page d' = page d → (scrolls d ≤ scrolls d')%nat →
             scroll_loop fuel d' max_items (height d (scrolls d')) = None.
Proof.
  intros Hcount Hgrow fuel. induction fuel as [|fuel IH]; intros d' Hpage Hle; [done|].
  rewrite ScrollFacts.scroll_loop_S.
  assert (item_count d' (scrolls d') = item_count d (scrolls d')) as ->
    by (unfold item_count; by rewrite Hpage).
  assert (height d' (S (scrolls d')) = height d (S (scrolls d'))) as ->
    by (unfold height; by rewrite Hpage).
  rewrite bool_decide_eq_false_2 by (specialize (Hcount (scrolls d') Hle); lia).
  rewrite bool_decide_eq_false_2 by (by apply Hgrow).
  apply (IH (sleep 2 (scroll_to_bottom d'))); [done|].
  rewrite ScrollFacts.scroll_step_scrolls. lia.
Qed.

(** X20. The loader has no bound of its own: on a page that grows with
    every scroll and never shows as many items as asked for,
    [_scroll_for_items] does not return, whatever the number of
    iterations allowed. *)
Theorem scroll_for_items_never_returns (d : driver) (max_items : Z) :
  (∀ k, (scrolls d ≤ k)%nat → item_count d k < max_items) →
  (∀ k, (scrolls d ≤ k)%nat → height d (S k) ≠ height d k) →
  ∀ fuel, _scroll_for_items fuel d max_items = None.
Proof.
  intros Hcount Hgrow fuel. unfold _scroll_for_items.
  by apply (scroll_loop_growing d max_items Hcount Hgrow fuel d).
Qed.

Lemma scroll_for_items_never_returns_witness :
  _scroll_for_items 1000 (Fixtures.fresh_driver MoreFixtures.endless_page) MAX_COMMENTS
  = None.
Proof.
  refine (scroll_for_items_never_returns
            (Fixtures.fresh_driver MoreFixtures.endless_page) MAX_COMMENTS _ _ 1000%nat).
  - intros k _. by vm_compute.
  - intros k _. unfold height, MoreFixtures.endless_page. simpl. lia.
Defined.

(** Moving the clock of the session moves the clock of the result and
    nothing else. *)
Lemma scroll_loop_shift (delta : Z) (fuel : nat) (d : driver) (max_items last_height : Z) :
  scroll_loop fuel (shift_clock delta d) max_items last_height
  = shift_clock delta <$> scroll_loop fuel d max_items last_height.
Proof.
  revert d last_height. induction fuel as [|fuel IH]; intros d last_height; [done|].
  rewrite !ScrollFacts.scroll_loop_S.
  change (item_count (shift_clock delta d) (scrolls (shift_clock delta d)))
    with (item_count d (scrolls d)).
  change (height (shift_clock delta d) (S (scrolls (shift_clock delta d))))
    with (height d (S (scrolls d))).
  assert (sleep 2 (scroll_to_bottom (shift_clock delta d))
          = shift_clock delta (sleep 2 (scroll_to_bottom d))) as ->.
  { unfold sleep, scroll_to_bottom, shift_clock, current. simpl. f_equal. lia. }
  repeat case_bool_decide; first [done | apply IH].
Qed.



Section Session.

Variable web : string → option (nat → snapshot).
Variable error_response : Type.
Variable handle_tool_error : exn → string → error_response.




(** X22. When neither page ever shows its container the call returns two
    empty lists and two warnings, and needs no scrolling for it. *)
Theorem get_person_activity_both_timeouts (fuel : nat) (username : string) (d : driver)
    (p q : nat → snapshot) (e e' : exn) :
  web (comments_url username) = Some p →
  driver_find_element sel_container (document (p 0%nat)) = inl e →
  web (reactions_url username) = Some q →
  driver_find_element sel_container (document (q 0%nat)) = inl e' →
  get_person_activity web (inr d) error_response handle_tool_error fuel username
  = Some (Activities [] [],
          [Warning ("Timeout waiting for comments page for " +:+ username) None;
           Warning ("Timeout waiting for reactions page for " +:+ username) None]).
Proof.
  intros Hp He Hq He'.
  unfold get_person_activity, comments_phase, comments_try_body,
    reactions_phase, reactions_try_body, get, wait_until_present, current.
  rewrite Hp. simpl. rewrite He. simpl. rewrite Hq. simpl. by rewrite He'.
Qed.

(** The reactions phase looks at the session it is given for its clock
    only. *)
Lemma reactions_try_body_frame (fuel : nat) (username : string) (d d' : driver) :
  snd <$> reactions_try_body web fuel username d
  = snd <$> reactions_try_body web fuel username d'.
Proof.
  unfold reactions_try_body, get.
  destruct (web (reactions_url username)) as [q|]; [|done].
  unfold wait_until_present, current. simpl.
  destruct (driver_find_element sel_container (document (q 0%nat))) as [e|c]; [done|].
  assert (Driver q 0 0 (clock d')
          = shift_clock (clock d' - clock d) (Driver q 0 0 (clock d))) as ->.
  { unfold shift_clock. simpl. f_equal. lia. }
  unfold _scroll_for_items.
  change (scrollHeight (current (shift_clock (clock d' - clock d) (Driver q 0 0 (clock d)))))
    with (scrollHeight (current (Driver q 0 0 (clock d)))).
  rewrite scroll_loop_shift.
  by destruct (scroll_loop fuel _ _ _) as [d3|].
Qed.

Lemma reactions_phase_frame (fuel : nat) (username : string) (d d' d2 : driver)
    (rs : list reaction) (l : list log_record) :
  reactions_phase web fuel username d = Some (d2, rs, l) →
  ∃ d2', reactions_phase web fuel username d' = Some (d2', rs, l).
Proof.
  unfold reactions_phase.
  pose proof (reactions_try_body_frame fuel username d d') as Hframe.
  destruct (reactions_try_body web fuel username d) as [[d3 o]|]; [|done].
  destruct (reactions_try_body web fuel username d') as [[d3' o']|]; [|done].
  simpl in *. injection Hframe as <-.
  destruct o as [e|[rs' l']]; [destruct e|]; intros [= _ <- <-]; by eexists.
Qed.

(** X23. The reactions of the response do not depend on the comments
    page: they, and the log records that come with them, are what the
    reactions phase yields when it is run straight from the session the
    call started with. *)
Theorem get_person_activity_reactions_frame (fuel : nat) (username : string) (d : driver)
    (cs : list comment) (rs : list reaction) (l : list log_record) :
  get_person_activity web (inr d) error_response handle_tool_error fuel username
  = Some (Activities cs rs, l) →
  ∃ d2 l1 l2, reactions_phase web fuel username d = Some (d2, rs, l2) ∧ l = l1 ++ l2.
Proof.
  unfold get_person_activity.
  destruct (comments_phase web fuel username d) as [[[d1 cs'] l1]|]; [|done]. simpl.
  destruct (reactions_phase web fuel username d1) as [[[d2 rs'] l2]|] eqn:Hrs; [|done].
  simpl. intros [= <- <- <-].
  destruct (reactions_phase_frame fuel username d1 d d2 rs' l2 Hrs) as [d2' Hd].
  by exists d2', l1, l2.
Qed.

End Session.

Lemma get_person_activity_both_timeouts_witness :
  get_person_activity MoreFixtures.silent_web
    (inr (Fixtures.fresh_driver Fixtures.stuck_page)) string (λ _ context, context) 0 "bob"
  = Some (Activities [] [],
          [Warning "Timeout waiting for comments page for bob" None;
           Warning "Timeout waiting for reactions page for bob" None]).
Proof.
  apply (get_person_activity_both_timeouts MoreFixtures.silent_web string
           (λ _ context, context) 0 "bob" (Fixtures.fresh_driver Fixtures.stuck_page)
           Fixtures.stuck_page Fixtures.stuck_page
           (NoSuchElementException sel_container) (NoSuchElementException sel_container));
    reflexivity.
Defined.

Lemma get_person_activity_reactions_frame_witness :
  ∃ d2 l1 l2,
    reactions_phase Fixtures.ada_web 1 "ada" (Fixtures.fresh_driver Fixtures.stuck_page)
    = Some (d2, replicate 3 (Reaction "Bob" "A post" "Ada likes this" "4h"), l2)
    ∧ [Warning "Timeout waiting for comments page for ada" None] = l1 ++ l2.
Proof.
  apply (get_person_activity_reactions_frame Fixtures.ada_web string
           (λ _ context, context) 1 "ada" (Fixtures.fresh_driver Fixtures.stuck_page) []).
  by vm_compute.
Defined.


End SessionFacts.
